(** * Order lifecycle engine of the FunsDiia shop bot (bot.py)

    A shallow embedding of the order ledger, the hourly rate limiter, the
    per-client session state and the buyer and operator handlers of
    [bot.py], followed by the properties of the specification that concern
    them.

    Conventions of the embedding:
    - a ledger row is the Python dict that [json.load] returns, a finite map
      from keys to JSON scalars; an element of the JSON array that is not a
      dict is kept as [NotDict], on which [row.get] raises [AttributeError];
    - the ledger file is described by what [json.load] makes of its text;
    - Python exceptions are explicit: a computation returns [Ret] or [Raise];
    - the clock, the outcome of the file write and the outcome of every
      transport call are inputs of a handler run;
    - [datetime], [pytz], [int] and [str.strip] are library code outside the
      repository and are taken as the operations of the class [Platform]. *)

From stdpp Require Import base option list gmap strings pretty.
From Stdlib Require Import Ascii ZArith Lia DecimalString DecimalZ.

Local Open Scope string_scope.
Local Open Scope list_scope.

(** ** Python values *)

(** The JSON scalars a ledger field can hold once loaded. *)
Inductive pyval :=
| PNone
| PStr (s : string)
| PInt (z : Z)
| PBool (b : bool).

#[global] Instance pyval_eq_dec : EqDecision pyval.
Proof. solve_decision. Defined.

(** [str(v)] *)
Definition py_str (v : pyval) : string :=
  match v with
  | PNone => "None"
  | PStr s => s
  | PInt z => pretty z
  | PBool true => "True"
  | PBool false => "False"
  end.

(** [bool(v)] *)
Definition truthy (v : pyval) : bool :=
  match v with
  | PNone => false
  | PStr s => negb (bool_decide (s = ""))
  | PInt z => negb (bool_decide (z = 0%Z))
  | PBool b => b
  end.

(** An [Optional[str]] as a value. *)
Definition of_opt (o : option string) : pyval :=
  match o with
  | Some s => PStr s
  | None => PNone
  end.

(** [row.get(key)]: an absent key and a null both give [None]. *)
Definition get (row : gmap string pyval) (key : string) : pyval :=
  default PNone (row !! key).

(** An element of the loaded JSON array. *)
Inductive elem :=
| Dict (row : gmap string pyval)
| NotDict.

#[global] Instance elem_eq_dec : EqDecision elem.
Proof. solve_decision. Defined.

(** ** Exceptions *)

Inductive exn :=
| AttributeError
| TransportError.

Inductive outcome (A : Type) :=
| Ret (a : A)
| Raise (e : exn).
Arguments Ret {A} a.
Arguments Raise {A} e.

(** ** Library operations and configuration *)

(** What [datetime.fromisoformat] returns: a naive wall-clock reading or an
    aware instant, both in microseconds. *)
Inductive datetime :=
| Naive (wall : Z)
| Aware (instant : Z).

Class Platform := {
  (** [datetime.fromisoformat]; [None] when it raises *)
  fromisoformat : string -> option datetime;
  (** [TIMEZONE.localize]; [None] when it raises *)
  localize : Z -> option Z;
  (** [datetime.isoformat] of an instant taken in [TIMEZONE] *)
  isoformat : Z -> string;
  (** [int(s)]; [None] for [ValueError] *)
  int_of_str : string -> option Z;
  (** [str.strip] *)
  str_strip : string -> string;
  MAX_REQUESTS_PER_HOUR : Z;
  ADMIN_CHAT_ID : Z;
}.

Definition AWAITING_FIO : string := "awaiting_fio".
Definition AWAITING_DOB : string := "awaiting_dob".
Definition AWAITING_PHOTO : string := "awaiting_photo".

Definition no_username : string := "немає".

Definition TARIFFS : gmap string string :=
  list_to_map
    [ ("1_day", "1 день — 20₴");
      ("30_days", "30 днів — 70₴");
      ("90_days", "90 днів — 150₴");
      ("180_days", "180 днів — 190₴");
      ("forever", "Назавжди — 250₴") ].

(** ** The ledger file *)

(** The text of [DATA_FILE], by what [json.load] makes of it. *)
Inductive file :=
| JsonList (data : list elem)
| JsonOther
| Unparsable.

(** How one [save_orders] call goes: the write completes, [open] raises and
    the file is not touched, or the file is opened, and so truncated, and an
    exception cuts the write short. *)
Inductive write_io :=
| WriteOk
| OpenFails
| DumpFails.

(** [None] is a missing file. *)
Definition load_orders (fs : option file) : list elem :=
  match fs with
  | None => []
  | Some (JsonList data) => data
  | Some JsonOther => []
  | Some Unparsable => []
  end.

Definition save_orders (w : write_io) (orders : list elem) (fs : option file)
  : bool * option file :=
  match w with
  | WriteOk => (true, Some (JsonList orders))
  | OpenFails => (false, fs)
  | DumpFails => (false, Some Unparsable)
  end.

(** [str(row.get("client_id")) == cid] *)
Definition is_client (cid : string) (row : gmap string pyval) : bool :=
  bool_decide (py_str (get row "client_id") = cid).

(** The loop of [get_last_order_for_client] over [reversed(orders)]. *)
Fixpoint scan_last (cid : string) (rows : list elem) : outcome (option (gmap string pyval)) :=
  match rows with
  | [] => Ret None
  | Dict row :: rest => if is_client cid row then Ret (Some row) else scan_last cid rest
  | NotDict :: _ => Raise AttributeError
  end.

Definition get_last_order_for_client (fs : option file) (client_id : Z)
  : outcome (option (gmap string pyval)) :=
  scan_last (pretty client_id) (reverse (load_orders fs)).

(** [row.get("status") if row else None] *)
Definition get_order_status (fs : option file) (client_id : Z) : outcome pyval :=
  match get_last_order_for_client fs client_id with
  | Ret (Some row) => Ret (get row "status")
  | Ret None => Ret PNone
  | Raise e => Raise e
  end.

Section Ledger.
Context `{Platform}.

(** [now_iso_with_tz()] at clock reading [now]. *)
Definition now_iso_with_tz (now : Z) : string := isoformat now.

Definition stamp_status (now : Z) (new_status : string) (row : gmap string pyval)
  : gmap string pyval :=
  <["status_updated_at" := PStr (now_iso_with_tz now)]>
    (<["status" := PStr new_status]> row).

(** The loop of [update_order_status] over [reversed(orders)]: the first
    match is rewritten in place; [None] when the loop falls through. *)
Fixpoint update_last (now : Z) (cid new_status : string) (rows : list elem)
  : outcome (option (list elem)) :=
  match rows with
  | [] => Ret None
  | Dict row :: rest =>
      if is_client cid row then
        Ret (Some (Dict (stamp_status now new_status row) :: rest))
      else
        match update_last now cid new_status rest with
        | Ret (Some rest') => Ret (Some (Dict row :: rest'))
        | Ret None => Ret None
        | Raise e => Raise e
        end
  | NotDict :: _ => Raise AttributeError
  end.

Definition update_order_status (now : Z) (w : write_io) (fs : option file)
    (client_id : Z) (new_status : string) : outcome bool * option file :=
  match update_last now (pretty client_id) new_status (reverse (load_orders fs)) with
  | Ret (Some rows) =>
      let '(ok, fs') := save_orders w (reverse rows) fs in (Ret ok, fs')
  | Ret None => (Ret false, fs)
  | Raise e => (Raise e, fs)
  end.

(** [username or "немає"] *)
Definition or_no_username (username : string) : string :=
  if bool_decide (username = "") then no_username else username.

(** [TARIFFS.get(tariff_key) if tariff_key else None] *)
Definition tariff_text_of (tariff_key : option string) : pyval :=
  match tariff_key with
  | Some k => if bool_decide (k = "") then PNone else of_opt (TARIFFS !! k)
  | None => PNone
  end.

Definition new_request (now : Z) (client_id : Z) (username : string)
    (tariff_key fio dob : option string) : gmap string pyval :=
  list_to_map
    [ ("client_id", PStr (pretty client_id));
      ("username", PStr (or_no_username username));
      ("status", PStr "waiting_req");
      ("created_at", PStr (now_iso_with_tz now));
      ("tariff_key", of_opt tariff_key);
      ("tariff_text", tariff_text_of tariff_key);
      ("fio", of_opt fio);
      ("dob", of_opt dob) ].

Definition add_request (now : Z) (w : write_io) (fs : option file)
    (client_id : Z) (username : string) (tariff_key fio dob : option string)
  : bool * option file :=
  save_orders w
    (load_orders fs ++ [Dict (new_request now client_id username tariff_key fio dob)])
    fs.

End Ledger.


(** ** Rate limiter *)

Section RateLimiter.
Context `{Platform}.

Definition parse_iso_datetime (s : pyval) : option Z :=
  match s with
  | PStr s =>
      match fromisoformat s with
      | Some (Aware t) => Some t
      | Some (Naive wall) => localize wall
      | None => None
      end
  | _ => None
  end.

(** [timedelta(hours=1)] in microseconds *)
Definition one_hour : Z := 3600000000.

(** The [for row in orders] loop of [check_request_limit], with its counter. *)
Fixpoint count_requests (one_hour_ago : Z) (cid_str : string) (rows : list elem)
    (count : Z) : outcome Z :=
  match rows with
  | [] => Ret count
  | Dict row :: rest =>
      if negb (is_client cid_str row) then
        count_requests one_hour_ago cid_str rest count
      else
        match parse_iso_datetime (get row "created_at") with
        | Some parsed =>
            if bool_decide (one_hour_ago < parsed)%Z then
              count_requests one_hour_ago cid_str rest (count + 1)
            else
              count_requests one_hour_ago cid_str rest count
        | None => count_requests one_hour_ago cid_str rest count
        end
  | NotDict :: _ => Raise AttributeError
  end.

(** The body of the [try] block. *)
Definition check_request_limit_body (now : Z) (fs : option file) (client_id : Z)
  : outcome bool :=
  match count_requests (now - one_hour) (pretty client_id) (load_orders fs) 0 with
  | Ret count => Ret (bool_decide (count < MAX_REQUESTS_PER_HOUR)%Z)
  | Raise e => Raise e
  end.

Definition check_request_limit (now : Z) (fs : option file) (client_id : Z) : bool :=
  match check_request_limit_body now fs client_id with
  | Ret allowed => allowed
  | Raise _ => true
  end.

End RateLimiter.

(** ** Handler runs *)

(** The transport calls the handlers make. [ReplyText] is
    [message.reply_text], addressed to the chat the update came from. *)
Inductive call :=
| ReplyText (chat : Z) (body : string)
| SendMessage (chat : Z) (body : string)
| SendPhoto (chat : Z) (photo_id caption : string)
| SendDocument (chat : Z) (document_id caption : string).

#[global] Instance call_eq_dec : EqDecision call.
Proof. solve_decision. Defined.

Definition recipient (c : call) : Z :=
  match c with
  | ReplyText chat _ | SendMessage chat _ | SendPhoto chat _ _
  | SendDocument chat _ _ => chat
  end.

(** What one handler run meets outside: the clock reading, how the ledger
    write goes, and which transport calls go through (the others raise). *)
Record run_io := {
  clock : Z;
  write : write_io;
  deliver : call -> bool;
}.

(** The ledger file, the sender's [context.user_data], and the calls
    delivered so far. *)
Record world := {
  ledger : option file;
  user_data : gmap string string;
  outbox : list call;
}.

Definition with_ledger (fs : option file) (w : world) : world :=
  {| ledger := fs; user_data := user_data w; outbox := outbox w |}.
Definition with_user_data (ud : gmap string string) (w : world) : world :=
  {| ledger := ledger w; user_data := ud; outbox := outbox w |}.
Definition with_sent (c : call) (w : world) : world :=
  {| ledger := ledger w; user_data := user_data w; outbox := outbox w ++ [c] |}.

(** An incoming message. [photo] lists the file ids of [message.photo]. *)
Record message := {
  chat_id : Z;
  from_id : Z;
  from_username : option string;
  text : string;
  photo : list string;
  document : option string;
}.

(** An operator command: [update.effective_chat] and [context.args]. *)
Record command := {
  effective_chat : option Z;
  args : list string;
}.

Definition M (A : Type) : Type := world -> outcome A * world.

Definition ret {A} (a : A) : M A := fun w => (Ret a, w).
Definition raise {A} (e : exn) : M A := fun w => (Raise e, w).
Definition bind {A B} (m : M A) (k : A -> M B) : M B :=
  fun w =>
    match m w with
    | (Ret a, w') => k a w'
    | (Raise e, w') => (Raise e, w')
    end.

(** [try: body except Exception: handler] *)
Definition try_except {A} (body handler : M A) : M A :=
  fun w =>
    match body w with
    | (Ret a, w') => (Ret a, w')
    | (Raise _, w') => handler w'
    end.

Notation "x <- c ;; k" := (bind c (fun x => k))
  (at level 100, c at next level, right associativity).
Notation "c ;; k" := (bind c (fun _ => k))
  (at level 100, right associativity).

Definition lift {A} (o : outcome A) : M A := fun w => (o, w).
Definition read_ledger : M (option file) := fun w => (Ret (ledger w), w).
Definition read_user_data : M (gmap string string) := fun w => (Ret (user_data w), w).
Definition set_item (key value : string) : M unit :=
  fun w => (Ret tt, with_user_data (<[key := value]> (user_data w)) w).
Definition clear_user_data : M unit :=
  fun w => (Ret tt, with_user_data ∅ w).
Definition transport (io : run_io) (c : call) : M unit :=
  fun w => if deliver io c then (Ret tt, with_sent c w) else (Raise TransportError, w).

(** ** Texts *)

Definition nl : string := String "010"%char "".

(** [html.escape(text)] *)
Fixpoint html_escape (s : string) : string :=
  match s with
  | EmptyString => ""
  | String c rest =>
      (if Ascii.eqb c "&"%char then "&amp;"
       else if Ascii.eqb c "<"%char then "&lt;"
       else if Ascii.eqb c ">"%char then "&gt;"
       else if Ascii.eqb c "034"%char then "&quot;"
       else if Ascii.eqb c "'"%char then "&#x27;"
       else String c "") +:+ html_escape rest
  end.

(** [escape_html(text)]: [None] gives the empty string, a string is escaped,
    and any other value has no [replace] for [html.escape] to call. *)
Definition escape_html (v : pyval) : outcome string :=
  match v with
  | PNone => Ret ""
  | PStr s => Ret (html_escape s)
  | PInt _ | PBool _ => Raise AttributeError
  end.

(** [v or ""] *)
Definition or_empty (v : pyval) : pyval :=
  if truthy v then v else PStr "".

(** [" ".join(words)] *)
Fixpoint join_space (words : list string) : string :=
  match words with
  | [] => ""
  | [w] => w
  | w :: rest => w +:+ " " +:+ join_space rest
  end.

Definition msg_ask_dob : string :=
  "Дякуємо! Тепер введіть  дату народження яку бажаєте використовувати для застосунку FunsDiia в форматі:(ДД.ММ.РРРР).".
Definition msg_save_failed : string :=
  "Помилка при збереженні замовлення. Спробуйте ще раз пізніше.".
Definition msg_ask_photo : string :=
  "Будь ласка, надішліть фотографію 3×4 (портретне фото)." +:+ nl +:+ nl +:+
  "Порада: сфотографуйтесь на білому фоні, без зайвих предметів.".
Definition msg_photo_as_photo : string :=
  "Надішліть, будь ласка, фото у вигляді фото (не як документ) для ID.".
Definition msg_fio_dob_first : string :=
  "Будь ласка, спочатку введіть ФІО та дату народження.".
Definition msg_photo_forward_failed : string :=
  "Помилка при відправці фото адміністраторам. Спробуйте ще раз.".
Definition msg_photo_received : string :=
  "Дякуємо, фото отримано. Очікуйте на реквізити для оплати від оператора у робочий час.".
Definition msg_send_receipt : string :=
  "Надішліть фото або файл квитанції.".
Definition msg_payment_checking : string :=
  "Ваш платіж перевіряється вручну Це займає приблизно 5-10 хвилин.Вибачте за незручності . Дякуємо!".
Definition msg_receipt_forward_failed : string :=
  "Помилка при надсиланні квитанції. Спробуйте ще раз.".
Definition msg_unexpected_media : string :=
  "Неочікуваний медіа-файл. Спробуйте почати замовлення знову /start.".
Definition msg_admin_only : string :=
  "Ця команда доступна лише в адмін-чаті.".
Definition msg_send_req_usage : string :=
  "Помилка: Використовуйте формат: /send_req <client_id> <текст реквізитів>".
Definition msg_confirm_usage : string :=
  "Помилка: Використовуйте формат: /confirm <client_id> <посилання_на_товар>".
Definition msg_id_not_number : string :=
  "Помилка: ID клієнта має бути числом.".
Definition msg_no_order (client_id : Z) : string :=
  "Не знайдено замовлення для оновлення статусу клієнта " +:+ pretty client_id +:+ ".".
Definition msg_requisites (safe_requisites_text : string) : string :=
  "💳 <b>Ваші реквізити для оплати:</b>" +:+ nl +:+ nl +:+
  "<pre>" +:+ safe_requisites_text +:+ "</pre>" +:+ nl +:+ nl +:+
  "Після оплати надішліть будь-ласка скрін оплати.".
Definition msg_requisites_sent (client_id : Z) : string :=
  "✅ Реквізити надіслано клієнту " +:+ pretty client_id +:+ ". Статус оновлено.".
Definition msg_requisites_not_sent : string :=
  "❌ Помилка: Не вдалося відправити повідомлення клієнту. Можливо, він заблокував бот.".
Definition msg_product (safe_link : string) : string :=
  "🥳 <b>Ваше замовлення успішно підтверджено!</b>" +:+ nl +:+ nl +:+
  "Дякуємо за оплату. Тепер Ви можете завантажити товар за посиланням нижче:" +:+ nl +:+ nl +:+
  "🔗 <a href='" +:+ safe_link +:+ "'>Отримати Товар</a>".
Definition msg_confirmed (client_id : Z) (product_link : string) : string :=
  "✅ Платіж клієнта " +:+ pretty client_id +:+ " підтверджено. Посилання на товар (" +:+
  product_link +:+ ") надіслано.".
Definition msg_product_not_sent : string :=
  "❌ Помилка при відправці повідомлення клієнту. Можливо, він заблокував бот.".

Definition caption_order (client_id : Z) (safe_username safe_tariff safe_fio safe_dob : string)
  : string :=
  "🖼️ <b>НОВЕ ЗАМОВЛЕННЯ (3x4)</b>" +:+ nl +:+
  "Клієнт ID: <code>" +:+ pretty client_id +:+ "</code>" +:+ nl +:+
  "Username: @" +:+ safe_username +:+ nl +:+
  "Тариф: <b>" +:+ safe_tariff +:+ "</b>" +:+ nl +:+
  "ФІО: <b>" +:+ safe_fio +:+ "</b>" +:+ nl +:+
  "Дата народження: <b>" +:+ safe_dob +:+ "</b>" +:+ nl +:+ nl +:+
  "АДМИНУ: <code>/send_req " +:+ pretty client_id +:+ " (реквізити)</code>".

Definition caption_receipt (client_id : Z) (safe_username : string) : string :=
  "💰 <b>НОВА КВИТАНЦІЯ</b>" +:+ nl +:+
  "Клієнт ID: <code>" +:+ pretty client_id +:+ "</code>" +:+ nl +:+
  "Username: " +:+ safe_username +:+ nl +:+
  "Дія: Підтвердіть платіж: <code>/confirm " +:+ pretty client_id +:+ " ССИЛКА</code>".

(** ** Handlers *)

Section Handlers.
Context `{Platform}.

Definition reply_text (io : run_io) (m : message) (body : string) : M unit :=
  transport io (ReplyText (chat_id m) body).

(** [message.from_user.username or "немає"] *)
Definition username_of (m : message) : string :=
  match from_username m with
  | Some u => or_no_username u
  | None => no_username
  end.

Definition do_add_request (io : run_io) (client_id : Z) (username : string)
    (tariff_key fio dob : option string) : M bool :=
  fun w =>
    let '(ok, fs) :=
      add_request (clock io) (write io) (ledger w) client_id username tariff_key fio dob in
    (Ret ok, with_ledger fs w).

Definition do_update_order_status (io : run_io) (client_id : Z) (new_status : string)
  : M bool :=
  fun w =>
    let '(r, fs) :=
      update_order_status (clock io) (write io) (ledger w) client_id new_status in
    (r, with_ledger fs w).

Definition handle_user_input (io : run_io) (m : message) : M unit :=
  ud <- read_user_data ;;
  match ud !! "order_state" with
  | None => ret tt
  | Some current_state =>
      let text := str_strip (text m) in
      if bool_decide (current_state = AWAITING_FIO) then
        set_item "fio" text ;;
        set_item "order_state" AWAITING_DOB ;;
        reply_text io m msg_ask_dob
      else if bool_decide (current_state = AWAITING_DOB) then
        set_item "dob" text ;;
        ud <- read_user_data ;;
        let client_id := from_id m in
        let tariff_key := ud !! "selected_tariff_key" in
        let fio := ud !! "fio" in
        let dob := ud !! "dob" in
        let username := username_of m in
        ok <- do_add_request io client_id username tariff_key fio dob ;;
        if negb ok then
          reply_text io m msg_save_failed ;;
          clear_user_data
        else
          set_item "order_state" AWAITING_PHOTO ;;
          reply_text io m msg_ask_photo
      else ret tt
  end.

(** [not last_order or not all([fio, dob, tariff_text])] *)
Definition order_incomplete (last_order : option (gmap string pyval)) : bool :=
  match last_order with
  | None => true
  | Some row =>
      bool_decide (row = ∅)
      || negb (truthy (get row "fio") && truthy (get row "dob")
               && truthy (get row "tariff_text"))
  end.

Definition handle_all_media (io : run_io) (m : message) : M unit :=
  let client_id := from_id m in
  fs <- read_ledger ;;
  status <- lift (get_order_status fs client_id) ;;
  ud <- read_user_data ;;
  let current_state := ud !! "order_state" in
  let is_photo_id_expected :=
    bool_decide (current_state = Some AWAITING_PHOTO)
    && bool_decide (status = PStr "waiting_req") in
  if is_photo_id_expected then
    match last (photo m) with
    | None => reply_text io m msg_photo_as_photo
    | Some file_id =>
        fs <- read_ledger ;;
        last_order <- lift (get_last_order_for_client fs client_id) ;;
        if order_incomplete last_order then
          reply_text io m msg_fio_dob_first ;;
          set_item "order_state" AWAITING_FIO
        else
          let row := default ∅ last_order in
          let username := username_of m in
          let safe_username :=
            if bool_decide (username ≠ no_username)
            then html_escape ("@" +:+ username) else no_username in
          safe_fio <- lift (escape_html (or_empty (get row "fio"))) ;;
          safe_dob <- lift (escape_html (or_empty (get row "dob"))) ;;
          safe_tariff <- lift (escape_html (or_empty (get row "tariff_text"))) ;;
          let caption := caption_order client_id safe_username safe_tariff safe_fio safe_dob in
          forwarded <-
            try_except
              (transport io (SendPhoto ADMIN_CHAT_ID file_id caption) ;; ret true)
              (reply_text io m msg_photo_forward_failed ;; ret false) ;;
          if forwarded then
            do_update_order_status io client_id "waiting_payment" ;;
            reply_text io m msg_photo_received
          else ret tt
    end
  else if bool_decide (status = PStr "waiting_payment")
          || bool_decide (status = PStr "waiting_confirm") then
    match last (photo m), document m with
    | None, None => reply_text io m msg_send_receipt
    | photo_id, document_id =>
        let username := username_of m in
        let safe_username := html_escape ("@" +:+ username) in
        let caption_text := caption_receipt client_id safe_username in
        try_except
          (match photo_id, document_id with
           | Some file_id, _ =>
               transport io (SendPhoto ADMIN_CHAT_ID file_id caption_text)
           | None, Some file_id =>
               transport io (SendDocument ADMIN_CHAT_ID file_id caption_text)
           | None, None => ret tt
           end ;;
           do_update_order_status io client_id "waiting_confirm" ;;
           reply_text io m msg_payment_checking)
          (reply_text io m msg_receipt_forward_failed)
    end
  else
    reply_text io m msg_unexpected_media.

Definition admin_check (io : run_io) (c : command) : M bool :=
  match effective_chat c with
  | None => ret false
  | Some chat =>
      if bool_decide (chat ≠ ADMIN_CHAT_ID) then
        try_except (transport io (ReplyText chat msg_admin_only)) (ret tt) ;;
        ret false
      else ret true
  end.

(** [update.message.reply_text] of a command. *)
Definition reply_command (io : run_io) (c : command) (body : string) : M unit :=
  match effective_chat c with
  | Some chat => transport io (ReplyText chat body)
  | None => raise AttributeError
  end.

Definition send_requisites (io : run_io) (c : command) : M unit :=
  is_admin <- admin_check io c ;;
  if negb is_admin then ret tt else
  match args c with
  | arg0 :: ((_ :: _) as rest) =>
      match int_of_str (str_strip arg0) with
      | None => reply_command io c msg_id_not_number
      | Some client_id =>
          let requisites_text := join_space rest in
          let safe_requisites_text := html_escape requisites_text in
          ok <- do_update_order_status io client_id "waiting_payment" ;;
          if negb ok then reply_command io c (msg_no_order client_id)
          else
            try_except
              (transport io (SendMessage client_id (msg_requisites safe_requisites_text)) ;;
               reply_command io c (msg_requisites_sent client_id))
              (reply_command io c msg_requisites_not_sent)
      end
  | _ => reply_command io c msg_send_req_usage
  end.

Definition confirm_payment (io : run_io) (c : command) : M unit :=
  is_admin <- admin_check io c ;;
  if negb is_admin then ret tt else
  match args c with
  | arg0 :: arg1 :: _ =>
      match int_of_str (str_strip arg0) with
      | None => reply_command io c msg_id_not_number
      | Some client_id =>
          let product_link := str_strip arg1 in
          ok <- do_update_order_status io client_id "completed" ;;
          if negb ok then reply_command io c (msg_no_order client_id)
          else
            let safe_link := html_escape product_link in
            let product_message := msg_product safe_link in
            try_except
              (transport io (SendMessage client_id product_message) ;;
               reply_command io c (msg_confirmed client_id product_link))
              (reply_command io c msg_product_not_sent)
      end
  | _ => reply_command io c msg_confirm_usage
  end.

End Handlers.

(** ** Vocabulary of the specification *)

(** The current record of a client, in the words of the specification: the
    most recently appended record whose client id matches. *)
Definition current_record (client_id : Z) (records : list (gmap string pyval))
  : option (gmap string pyval) :=
  last (filter (λ row, py_str (get row "client_id") = pretty client_id) records).

(** One call of [add_request], with the clock reading it is made at. *)
Record request := {
  req_client : Z;
  req_username : string;
  req_tariff : option string;
  req_fio : option string;
  req_dob : option string;
  req_at : Z;
}.

(** A field that holds a non-empty text. *)
Definition has_text (row : gmap string pyval) (key : string) : Prop :=
  ∃ s, get row key = PStr s ∧ s ≠ "".

(** The calls of [calls] that go through under [io], in order. *)
Definition delivered (io : run_io) (calls : list call) : list call :=
  filter (λ c, deliver io c = true) calls.

Section Vocabulary.
Context `{Platform}.

Definition record_of (q : request) : gmap string pyval :=
  new_request (req_at q) (req_client q) (req_username q)
    (req_tariff q) (req_fio q) (req_dob q).

(** A run of successful [add_request] calls, oldest first. *)
Definition append_all (reqs : list request) (fs : option file) : option file :=
  foldl
    (λ fs q,
       (add_request (req_at q) WriteOk fs (req_client q) (req_username q)
          (req_tariff q) (req_fio q) (req_dob q)).2)
    fs reqs.

(** A record of the client stamped later than one hour before [now]. *)
Definition in_window (now client_id : Z) (row : gmap string pyval) : bool :=
  is_client (pretty client_id) row
  && match parse_iso_datetime (get row "created_at") with
     | Some t => bool_decide (now - one_hour < t)%Z
     | None => false
     end.

(** The number of such records: what the limiter compares with the ceiling. *)
Definition recent_requests (now client_id : Z) (records : list (gmap string pyval)) : nat :=
  length (filter (λ row, in_window now client_id row = true) records).

(** A record of the client stamped inside the hour that ends at [now]. *)
Definition in_trailing_hour (now client_id : Z) (row : gmap string pyval) : bool :=
  is_client (pretty client_id) row
  && match parse_iso_datetime (get row "created_at") with
     | Some t => bool_decide (now - one_hour < t)%Z && bool_decide (t ≤ now)%Z
     | None => false
     end.

(** The record is not stamped later than [now]. *)
Definition stamped_by (now : Z) (row : gmap string pyval) : Prop :=
  ∀ t, parse_iso_datetime (get row "created_at") = Some t → (t ≤ now)%Z.

(** A row the loop of the limiter passes over without counting. *)
Definition passed_over (one_hour_ago : Z) (cid_str : string) (row : gmap string pyval) : bool :=
  negb (is_client cid_str row)
  || match parse_iso_datetime (get row "created_at") with
     | Some parsed => negb (bool_decide (one_hour_ago < parsed)%Z)
     | None => true
     end.

(** The two operator commands, with the status each one sets, the notice it
    sends to the client (from [args[1:]]) and its report of a failed send. *)
Inductive operator_command :=
| SendReq
| Confirm.

Definition operator_handler (k : operator_command) : run_io -> command -> M unit :=
  match k with
  | SendReq => send_requisites
  | Confirm => confirm_payment
  end.

Definition target_status (k : operator_command) : string :=
  match k with
  | SendReq => "waiting_payment"
  | Confirm => "completed"
  end.

Definition client_notice (k : operator_command) (rest : list string) : string :=
  match k with
  | SendReq => msg_requisites (html_escape (join_space rest))
  | Confirm => msg_product (html_escape (str_strip (hd "" rest)))
  end.

Definition success_report (k : operator_command) (client_id : Z) (rest : list string)
  : string :=
  match k with
  | SendReq => msg_requisites_sent client_id
  | Confirm => msg_confirmed client_id (str_strip (hd "" rest))
  end.

Definition failure_report (k : operator_command) : string :=
  match k with
  | SendReq => msg_requisites_not_sent
  | Confirm => msg_product_not_sent
  end.

End Vocabulary.

(** ** Parts of handler runs *)

Section Runs.
Context `{Platform}.

(** The run of either command once the caller is the operator and the first
    argument reads as a number. *)
Definition command_body (k : operator_command) (io : run_io) (c : command)
    (client_id : Z) (rest : list string) : M unit :=
  ok <- do_update_order_status io client_id (target_status k) ;;
  if negb ok then reply_command io c (msg_no_order client_id)
  else
    try_except
      (transport io (SendMessage client_id (client_notice k rest)) ;;
       reply_command io c (success_report k client_id rest))
      (reply_command io c (failure_report k)).

(** The staged fields once the date of birth is stored. *)
Definition staged_dob (m : message) (w : world) : gmap string string :=
  <["dob" := str_strip (text m)]> (user_data w).

(** The record [handle_user_input] asks [add_request] to append. *)
Definition staged_record (io : run_io) (m : message) (w : world) : gmap string pyval :=
  new_request (clock io) (from_id m) (username_of m)
    (staged_dob m w !! "selected_tariff_key") (staged_dob m w !! "fio")
    (staged_dob m w !! "dob").

(** The caption of a forwarded ID photo. *)
Definition order_caption (m : message) (tariff fio dob : string) : string :=
  caption_order (from_id m)
    (if bool_decide (username_of m ≠ no_username)
     then html_escape ("@" +:+ username_of m) else no_username)
    (html_escape tariff) (html_escape fio) (html_escape dob).

(** What is left of [handle_all_media] once the ID photo is expected and
    the current record is complete. *)
Definition forward_id_photo (io : run_io) (m : message) (file_id caption : string) : M unit :=
  forwarded <-
    try_except
      (transport io (SendPhoto ADMIN_CHAT_ID file_id caption) ;; ret true)
      (reply_text io m msg_photo_forward_failed ;; ret false) ;;
  if forwarded then
    do_update_order_status io (from_id m) "waiting_payment" ;;
    reply_text io m msg_photo_received
  else ret tt.

(** [p] leaves the ledger file as it is, and a value it returns satisfies
    [post]. *)
Definition ledger_kept {A} (post : A → Prop) (p : M A) : Prop :=
  ∀ w, ledger (p w).2 = ledger w ∧ ∀ a, (p w).1 = Ret a → post a.

(** The operator channel is out of reach: forwarding a photo or a document
    to it raises. *)
Definition operator_unreachable (io : run_io) : Prop :=
  ∀ file_id caption,
    deliver io (SendPhoto ADMIN_CHAT_ID file_id caption) = false
    ∧ deliver io (SendDocument ADMIN_CHAT_ID file_id caption) = false.

End Runs.

(** ** A platform to run examples on

    Instants are written as plain decimal counts of microseconds, [int]
    reads plain decimal numerals, [strip] removes ASCII blanks, and the
    configuration takes the defaults of [bot.py]. *)

Definition is_blank (c : ascii) : bool :=
  bool_decide (c ∈ [" "; "009"; "010"; "011"; "012"; "013"]%char).

Fixpoint lstrip (s : string) : string :=
  match s with
  | String c rest => if is_blank c then lstrip rest else s
  | EmptyString => ""
  end.

Definition decimal_strip (s : string) : string :=
  String.rev (lstrip (String.rev (lstrip s))).

Definition decimal_of_instant (t : Z) : string :=
  NilZero.string_of_int (Z.to_int t).

Definition instant_of_decimal (s : string) : option Z :=
  Z.of_int <$> NilZero.int_of_string s.

Definition example_platform : Platform := {|
  fromisoformat := λ s, Aware <$> instant_of_decimal s;
  localize := Some;
  isoformat := decimal_of_instant;
  int_of_str := instant_of_decimal;
  str_strip := decimal_strip;
  MAX_REQUESTS_PER_HOUR := 10;
  ADMIN_CHAT_ID := -1002003419071;
|}.

(** Every transport call goes through. *)
Definition all_delivered : call -> bool := λ _, true.

(** Calls to the chat [chat] raise, the others go through. *)
Definition unreachable (chat : Z) : call -> bool :=
  λ c, negb (bool_decide (recipient c = chat)).

(** ** Example data *)

Definition example_request : request := {|
  req_client := 123;
  req_username := "jane";
  req_tariff := Some "30_days";
  req_fio := Some "Jane Doe";
  req_dob := Some "01.01.1990";
  req_at := 1700000000000000;
|}.

(** A ledger with one record, of client 123, at [waiting_req]. *)
Definition example_ledger : option file :=
  Some (JsonList [Dict (@record_of example_platform example_request)]).

(** One minute after the record was created, everything working. *)
Definition example_io : run_io := {|
  clock := 1700000060000000;
  write := WriteOk;
  deliver := all_delivered;
|}.

Definition example_photo : message := {|
  chat_id := 123;
  from_id := 123;
  from_username := Some "jane";
  text := "";
  photo := ["AgAD-small"; "AgAD-large"];
  document := None;
|}.

Definition example_text (body : string) : message := {|
  chat_id := 123;
  from_id := 123;
  from_username := Some "jane";
  text := body;
  photo := [];
  document := None;
|}.

Definition world_awaiting_photo : world := {|
  ledger := example_ledger;
  user_data :=
    {[ "selected_tariff_key" := "30_days"; "fio" := "Jane Doe";
       "dob" := "01.01.1990"; "order_state" := AWAITING_PHOTO ]};
  outbox := [];
|}.

(** Tier [30_days] chosen, no ledger file yet. *)
Definition world_awaiting_fio : world := {|
  ledger := None;
  user_data := {[ "selected_tariff_key" := "30_days"; "order_state" := AWAITING_FIO ]};
  outbox := [];
|}.

(** The operator's view: no session data of its own. *)
Definition world_operator (fs : option file) : world := {|
  ledger := fs;
  user_data := ∅;
  outbox := [];
|}.

Definition example_command (words : list string) : command := {|
  effective_chat := Some (-1002003419071)%Z;
  args := words;
|}.

(** ** Further functions of [bot.py] *)

(** *** MarkdownV2 escaping *)

(** The characters [escape_markdown_v2] puts a backslash before. *)
Definition mdv2_chars : string := "_*[]()~`>#+-=|{}.!".

Fixpoint occurs_in (c : ascii) (s : string) : bool :=
  match s with
  | EmptyString => false
  | String c' rest => Ascii.eqb c c' || occurs_in c rest
  end.

Definition is_mdv2_char (c : ascii) : bool := occurs_in c mdv2_chars.

(** [re.sub("([...])", r"\\\1", text)] over the class of [mdv2_chars]. *)
Fixpoint markdown_escape (text : string) : string :=
  match text with
  | EmptyString => ""
  | String c rest =>
      if is_mdv2_char c then String "\" (String c (markdown_escape rest))
      else String c (markdown_escape rest)
  end.

(** [None] and the empty string give the empty string. *)
Definition escape_markdown_v2 (text : option string) : string :=
  match text with
  | Some s => markdown_escape s
  | None => ""
  end.

(** Reading an escaped text back: a backslash in front of a character of
    [mdv2_chars] is dropped. *)
Fixpoint markdown_unescape (s : string) : string :=
  match s with
  | EmptyString => ""
  | String c rest =>
      match rest with
      | String c' rest' =>
          if Ascii.eqb c "\" && is_mdv2_char c' then String c' (markdown_unescape rest')
          else String c (markdown_unescape rest)
      | EmptyString => String c ""
      end
  end.

(** The characters [html.escape] replaces. *)
Definition is_html_special (c : ascii) : bool :=
  occurs_in c "&<>'" || Ascii.eqb c "034".

(** *** [/start] *)

Definition msg_welcome : string :=
  "Вітаємо в додатку FunsDiia ! Натисніть нижче щоб розпочати!".

(** The inline keyboard of the reply is not part of a [call]. *)
Definition start (io : run_io) (m : message) : M unit :=
  clear_user_data ;;
  reply_text io m msg_welcome.

(** *** Choosing a tariff *)

(** The calls a callback handler makes on its query. *)
Inductive query_call :=
| AnswerQuery
| EditMessageText (body : string).

(** [update.callback_query]: the sender and the callback data. *)
Record callback_query := {
  query_from : Z;
  query_data : option string;
}.

(** The clock reading and which calls on the query go through. *)
Record query_io := {
  query_clock : Z;
  query_deliver : query_call -> bool;
}.

(** How a run of a callback handler ends: its outcome, the sender's
    [context.user_data], and the calls that went through. *)
Record query_run := {
  query_outcome : outcome unit;
  query_user_data : gmap string string;
  query_calls : list query_call;
}.

(** [data.split(":", 1)[1]], and [None] when [":" not in data]. *)
Fixpoint after_colon (data : string) : option string :=
  match data with
  | EmptyString => None
  | String c rest => if Ascii.eqb c ":" then Some rest else after_colon rest
  end.

Definition msg_unknown_tariff : string := "Невідомий тариф.".
Definition msg_limit_exceeded : string :=
  "Ви перевищили ліміт запитів (10 на годину). Спробуйте пізніше.".
Definition unknown_tariff_text : string := "Невідомий тариф".
Definition msg_tariff_chosen (safe_tariff_text : string) : string :=
  "✅ Ви обрали тариф: <b>" +:+ safe_tariff_text +:+ "</b>" +:+ nl +:+ nl +:+
  "Будь ласка, введіть Ваше <b>повне ім'я, прізвище та по батькові</b> (ФІО) для замовлення:".

Definition edit_message_text (io : query_io) (body : string)
    (ud : gmap string string) (calls : list query_call) : query_run :=
  if query_deliver io (EditMessageText body) then
    {| query_outcome := Ret tt; query_user_data := ud;
       query_calls := calls ++ [EditMessageText body] |}
  else
    {| query_outcome := Raise TransportError; query_user_data := ud;
       query_calls := calls |}.

Section Callbacks.
Context `{Platform}.

Definition select_tariff (io : query_io) (fs : option file) (q : callback_query)
    (ud : gmap string string) : query_run :=
  if negb (query_deliver io AnswerQuery) then
    {| query_outcome := Raise TransportError; query_user_data := ud; query_calls := [] |}
  else
    let data := default "" (query_data q) in
    match after_colon data with
    | None => edit_message_text io msg_unknown_tariff ud [AnswerQuery]
    | Some tariff_key =>
        if negb (check_request_limit (query_clock io) fs (query_from q)) then
          edit_message_text io msg_limit_exceeded ud [AnswerQuery]
        else
          let ud := <["selected_tariff_key" := tariff_key]> ud in
          let ud := <["order_state" := AWAITING_FIO]> ud in
          let selected_tariff_text := default unknown_tariff_text (TARIFFS !! tariff_key) in
          edit_message_text io (msg_tariff_chosen (html_escape selected_tariff_text))
            ud [AnswerQuery]
    end.

(** *** Vocabulary of the further properties *)

(** The usage reply of a command with fewer than two arguments. *)
Definition usage_text (k : operator_command) : string :=
  match k with
  | SendReq => msg_send_req_usage
  | Confirm => msg_confirm_usage
  end.

(** The forward of a payment proof: the largest size of a photo when there
    is one, else the document. *)
Definition proof_forward (m : message) : option call :=
  let caption := caption_receipt (from_id m) (html_escape ("@" +:+ username_of m)) in
  match last (photo m), document m with
  | Some file_id, _ => Some (SendPhoto ADMIN_CHAT_ID file_id caption)
  | None, Some file_id => Some (SendDocument ADMIN_CHAT_ID file_id caption)
  | None, None => None
  end.

End Callbacks.

(** [p] leaves the sender's [context.user_data] as it is. *)
Definition session_kept {A} (p : M A) : Prop :=
  ∀ w, user_data (p w).2 = user_data w.

(** All of [rows] are records of clients other than [cid]. *)
Definition other_clients (cid : string) (rows : list elem) : Prop :=
  Forall (λ e, ∃ row, e = Dict row ∧ is_client cid row = false) rows.


(** Everything a run needs works: the ledger write completes and every
    transport call goes through. *)
Definition works (io : run_io) : Prop :=
  write io = WriteOk ∧ ∀ call, deliver io call = true.

(** *** More example data *)

Definition example_request_456 : request := {|
  req_client := 456;
  req_username := "";
  req_tariff := Some "forever";
  req_fio := Some "John Roe";
  req_dob := Some "02.02.1992";
  req_at := 1700000030000000;
|}.

(** A request whose tariff key is not in the catalogue. *)
Definition example_request_odd : request := {|
  req_client := 123;
  req_username := "jane";
  req_tariff := Some "2_days";
  req_fio := Some "Jane Doe";
  req_dob := Some "01.01.1990";
  req_at := 1700000000000000;
|}.

(** Client 123's record, then client 456's. *)
Definition example_shared_ledger : option file :=
  @append_all example_platform [example_request; example_request_456] None.

(** The same with client 123's record at [waiting_payment]. *)
Definition example_paying_ledger : option file :=
  (@update_order_status example_platform 1700000060000000 WriteOk example_shared_ledger
     123 "waiting_payment").2.

(** The buyer's world with the ledger [fs] and a session left at
    [awaiting_photo]. *)
Definition world_buyer (fs : option file) : world := {|
  ledger := fs;
  user_data := user_data world_awaiting_photo;
  outbox := [];
|}.

Definition example_receipt : message := {|
  chat_id := 123;
  from_id := 123;
  from_username := None;
  text := "";
  photo := [];
  document := Some "BQAD-receipt";
|}.

Definition example_query (data : string) : callback_query := {|
  query_from := 123;
  query_data := Some data;
|}.

Definition example_query_io : query_io := {|
  query_clock := 1700000060000000;
  query_deliver := λ _, true;
|}.

(** Everything working, at clock reading [t]. *)
Definition example_io_at (t : Z) : run_io := {|
  clock := t;
  write := WriteOk;
  deliver := all_delivered;
|}.
(** * Properties *)

(** ** The current record *)

Section CurrentRecord.
Context `{Platform}.

Lemma scan_last_records client_id (records : list (gmap string pyval)) :
  scan_last (pretty client_id) (reverse (Dict <$> records))
  = Ret (current_record client_id records).
Proof.
  unfold current_record.
  induction records as [|row records IH] using rev_ind; [done|].
  rewrite fmap_app, reverse_app. cbn [fmap list_fmap reverse rev_append app scan_last].
  rewrite filter_app. unfold is_client.
  case_bool_decide as Hc.
  - rewrite filter_cons_True by done. rewrite filter_nil.
    by rewrite last_snoc.
  - rewrite filter_cons_False by done. rewrite filter_nil, app_nil_r.
    apply IH.
Qed.

Lemma get_last_after_add now fs client_id username tariff_key fio dob c :
  get_last_order_for_client
    (add_request now WriteOk fs client_id username tariff_key fio dob).2 c
  = if bool_decide (client_id = c)
    then Ret (Some (new_request now client_id username tariff_key fio dob))
    else get_last_order_for_client fs c.
Proof.
  unfold get_last_order_for_client, add_request. cbn [save_orders snd load_orders].
  rewrite reverse_app. cbn [reverse rev_append app scan_last].
  unfold is_client at 1.
  change (get (new_request now client_id username tariff_key fio dob) "client_id")
    with (PStr (pretty client_id)).
  cbn [py_str].
  case_bool_decide as Hs; case_bool_decide as Hc; try done.
  - by apply (inj pretty) in Hs.
  - by subst.
Qed.

Lemma get_last_after_appends reqs fs c :
  get_last_order_for_client (append_all reqs fs) c
  = match last (filter (λ q, req_client q = c) reqs) with
    | Some q => Ret (Some (record_of q))
    | None => get_last_order_for_client fs c
    end.
Proof.
  induction reqs as [|q reqs IH] using rev_ind; [done|].
  unfold append_all. rewrite foldl_snoc. fold (append_all reqs fs).
  rewrite get_last_after_add, filter_app.
  case_bool_decide as Hc.
  - rewrite filter_cons_True by done. by rewrite filter_nil, last_snoc.
  - rewrite filter_cons_False by done. by rewrite filter_nil, app_nil_r.
Qed.

(** C1. [get_last_order_for_client] returns the most recently appended
    record whose client id matches, and none when the ledger holds no such
    record (or the file is missing, not a list, or unreadable as JSON).
    After any run of successful appends it returns the record of the last
    append made for that client, whatever was appended for other clients in
    between; with no append for the client it returns what it did before. *)
Theorem find_current_last_match :
  (∀ client_id records,
     get_last_order_for_client (Some (JsonList (Dict <$> records))) client_id
     = Ret (current_record client_id records))
  ∧ (∀ client_id,
       get_last_order_for_client None client_id = Ret None
       ∧ get_last_order_for_client (Some JsonOther) client_id = Ret None
       ∧ get_last_order_for_client (Some Unparsable) client_id = Ret None)
  ∧ (∀ reqs fs client_id,
       get_last_order_for_client (append_all reqs fs) client_id
       = match last (filter (λ q, req_client q = client_id) reqs) with
         | Some q => Ret (Some (record_of q))
         | None => get_last_order_for_client fs client_id
         end).
Proof.
  split; [|split].
  - intros. apply scan_last_records.
  - done.
  - intros. apply get_last_after_appends.
Qed.

End CurrentRecord.

(** ** The rate limiter *)

Section RateLimit.
Context `{Platform}.

Lemma count_requests_step one_hour_ago cid_str row rest count :
  count_requests one_hour_ago cid_str (Dict row :: rest) count
  = count_requests one_hour_ago cid_str rest
      (if passed_over one_hour_ago cid_str row then count else count + 1)%Z.
Proof.
  unfold passed_over. cbn [count_requests].
  destruct (is_client cid_str row); cbn [negb orb]; [|done].
  destruct (parse_iso_datetime (get row "created_at")) as [parsed|]; [|done].
  by case_bool_decide.
Qed.

Lemma passed_over_in_window now client_id row :
  passed_over (now - one_hour) (pretty client_id) row = negb (in_window now client_id row).
Proof.
  unfold passed_over, in_window.
  destruct (is_client (pretty client_id) row); cbn [negb orb andb]; [|done].
  by destruct (parse_iso_datetime (get row "created_at")).
Qed.

Lemma count_requests_records now client_id (records : list (gmap string pyval)) count :
  count_requests (now - one_hour) (pretty client_id) (Dict <$> records) count
  = Ret (count + Z.of_nat (recent_requests now client_id records))%Z.
Proof.
  unfold recent_requests.
  revert count. induction records as [|row records IH]; intros count.
  - cbn. f_equal. lia.
  - rewrite fmap_cons, count_requests_step, passed_over_in_window, IH.
    destruct (in_window now client_id row) eqn:Hw; cbn [negb].
    + rewrite filter_cons_True by done. cbn [length]. f_equal. lia.
    + rewrite filter_cons_False by (by rewrite Hw). done.
Qed.

Lemma count_requests_skip one_hour_ago cid_str before row after count :
  passed_over one_hour_ago cid_str row = true →
  count_requests one_hour_ago cid_str (before ++ Dict row :: after) count
  = count_requests one_hour_ago cid_str (before ++ after) count.
Proof.
  intros Hskip. revert count.
  induction before as [|[r|] before IH]; intros count; cbn [app].
  - by rewrite count_requests_step, Hskip.
  - by rewrite !count_requests_step, IH.
  - done.
Qed.

Lemma count_requests_not_dict one_hour_ago cid_str before after count :
  count_requests one_hour_ago cid_str (before ++ NotDict :: after) count
  = Raise AttributeError.
Proof.
  revert count.
  induction before as [|[r|] before IH]; intros count; cbn [app]; [done| |done].
  by rewrite count_requests_step, IH.
Qed.

Lemma check_request_limit_records now client_id (records : list (gmap string pyval)) :
  check_request_limit now (Some (JsonList (Dict <$> records))) client_id
  = bool_decide (Z.of_nat (recent_requests now client_id records) < MAX_REQUESTS_PER_HOUR)%Z.
Proof.
  unfold check_request_limit, check_request_limit_body. cbn [load_orders].
  by rewrite count_requests_records, Z.add_0_l.
Qed.

Lemma recent_requests_app now client_id (l1 l2 : list (gmap string pyval)) :
  recent_requests now client_id (l1 ++ l2)
  = recent_requests now client_id l1 + recent_requests now client_id l2.
Proof. unfold recent_requests. by rewrite filter_app, length_app. Qed.

Lemma in_window_trailing_hour now client_id row :
  stamped_by now row →
  in_window now client_id row = in_trailing_hour now client_id row.
Proof.
  intros Hstamp. unfold in_window, in_trailing_hour. f_equal.
  destruct (parse_iso_datetime (get row "created_at")) as [t|] eqn:Ht; [|done].
  rewrite (bool_decide_eq_true_2 (t ≤ now)%Z) by by apply Hstamp.
  by rewrite andb_true_r.
Qed.

Lemma recent_requests_trailing_hour now client_id (records : list (gmap string pyval)) :
  Forall (stamped_by now) records →
  recent_requests now client_id records
  = length (filter (λ row, in_trailing_hour now client_id row = true) records).
Proof.
  unfold recent_requests. induction 1 as [|row records Hrow _ IH]; [done|].
  rewrite !filter_cons, <- (in_window_trailing_hour _ client_id _ Hrow).
  destruct (decide (in_window now client_id row = true)); cbn [length]; by rewrite IH.
Qed.

(** C3. The limiter admits exactly when the number of the client's records
    whose [created_at] parses to an instant later than one hour before the
    current instant is strictly below [MAX_REQUESTS_PER_HOUR]. A record
    stamped exactly one hour ago is not counted, a record of the client
    stamped later than that is, and with the count at the ceiling the
    request is denied. With no record stamped later than the current
    instant, the records counted are those inside the hour that ends now. *)
Theorem rate_limit_admits_below_ceiling now client_id (records : list (gmap string pyval)) :
  (check_request_limit now (Some (JsonList (Dict <$> records))) client_id = true
   <-> (Z.of_nat (recent_requests now client_id records) < MAX_REQUESTS_PER_HOUR)%Z)
  ∧ (∀ row, parse_iso_datetime (get row "created_at") = Some (now - one_hour)%Z →
       recent_requests now client_id (records ++ [row])
       = recent_requests now client_id records)
  ∧ (∀ row t, is_client (pretty client_id) row = true →
       parse_iso_datetime (get row "created_at") = Some t →
       (now - one_hour < t)%Z →
       recent_requests now client_id (records ++ [row])
       = S (recent_requests now client_id records))
  ∧ (Z.of_nat (recent_requests now client_id records) = MAX_REQUESTS_PER_HOUR →
       check_request_limit now (Some (JsonList (Dict <$> records))) client_id = false)
  ∧ (Forall (stamped_by now) records →
       recent_requests now client_id records
       = length (filter (λ row, in_trailing_hour now client_id row = true) records)).
Proof.
  rewrite check_request_limit_records.
  split; [apply bool_decide_eq_true|].
  split; [|split; [|split]].
  - intros row Hrow. rewrite recent_requests_app.
    unfold recent_requests at 2. rewrite filter_cons_False; [cbn; lia|].
    unfold in_window. rewrite Hrow. rewrite bool_decide_eq_false_2 by lia.
    by rewrite andb_false_r.
  - intros row t Hc Hrow Ht. rewrite recent_requests_app.
    unfold recent_requests at 2. rewrite filter_cons_True; [cbn; lia|].
    unfold in_window. rewrite Hc, Hrow. by rewrite bool_decide_eq_true_2.
  - intros Hfull. apply bool_decide_eq_false. lia.
  - apply recent_requests_trailing_hour.
Qed.

(** C4. A record whose [created_at] does not parse is passed over: with it
    anywhere in the ledger the scan reaches the same outcome as without it.
    When the check itself raises, the limiter admits; this is what happens
    when an element of the ledger is not a record. *)
Theorem rate_limit_fails_open now client_id before after :
  (∀ row, parse_iso_datetime (get row "created_at") = None →
     check_request_limit_body now (Some (JsonList (before ++ Dict row :: after))) client_id
     = check_request_limit_body now (Some (JsonList (before ++ after))) client_id
     ∧ check_request_limit now (Some (JsonList (before ++ Dict row :: after))) client_id
       = check_request_limit now (Some (JsonList (before ++ after))) client_id)
  ∧ (∀ fs e, check_request_limit_body now fs client_id = Raise e →
       check_request_limit now fs client_id = true)
  ∧ check_request_limit_body now (Some (JsonList (before ++ NotDict :: after))) client_id
    = Raise AttributeError
  ∧ check_request_limit now (Some (JsonList (before ++ NotDict :: after))) client_id = true.
Proof.
  split; [|split; [|split]].
  - intros row Hrow.
    assert (check_request_limit_body now (Some (JsonList (before ++ Dict row :: after))) client_id
            = check_request_limit_body now (Some (JsonList (before ++ after))) client_id) as Hb.
    { unfold check_request_limit_body. cbn [load_orders].
      rewrite count_requests_skip; [done|].
      unfold passed_over. rewrite Hrow. apply orb_true_r. }
    split; [done|]. unfold check_request_limit. by rewrite Hb.
  - intros fs e Hraise. unfold check_request_limit. by rewrite Hraise.
  - unfold check_request_limit_body. cbn [load_orders].
    by rewrite count_requests_not_dict.
  - unfold check_request_limit, check_request_limit_body. cbn [load_orders].
    by rewrite count_requests_not_dict.
Qed.

End RateLimit.

(** ** Status updates *)

Section StatusUpdate.
Context `{Platform}.

Lemma is_client_stamp_status cid now new_status row :
  is_client cid (stamp_status now new_status row) = is_client cid row.
Proof.
  unfold is_client, get, stamp_status.
  by rewrite !lookup_insert_ne.
Qed.

Lemma get_status_stamp_status now new_status row :
  get (stamp_status now new_status row) "status" = PStr new_status.
Proof.
  unfold get, stamp_status.
  rewrite lookup_insert_ne by done. by rewrite lookup_insert_eq.
Qed.

Lemma get_updated_at_stamp_status now new_status row :
  get (stamp_status now new_status row) "status_updated_at" = PStr (isoformat now).
Proof. unfold get, stamp_status. by rewrite lookup_insert_eq. Qed.

Lemma get_other_stamp_status now new_status row key :
  key ≠ "status" → key ≠ "status_updated_at" →
  get (stamp_status now new_status row) key = get row key.
Proof.
  intros. unfold get, stamp_status. by rewrite !lookup_insert_ne.
Qed.

Lemma update_last_none now cid new_status rows :
  scan_last cid rows = Ret None →
  update_last now cid new_status rows = Ret None.
Proof.
  induction rows as [|[row|] rows IH]; cbn [scan_last update_last]; [done| |done].
  destruct (is_client cid row); [done|].
  intros Hrest. by rewrite IH.
Qed.

Lemma update_last_some now cid new_status rows row :
  scan_last cid rows = Ret (Some row) →
  ∃ rows',
    update_last now cid new_status rows = Ret (Some rows')
    ∧ scan_last cid rows' = Ret (Some (stamp_status now new_status row)).
Proof.
  induction rows as [|[r|] rows IH]; cbn [scan_last update_last]; [done| |done].
  destruct (is_client cid r) eqn:Hc.
  - intros [= ->]. eexists. split; [done|].
    cbn [scan_last]. by rewrite is_client_stamp_status, Hc.
  - intros Hrest. destruct (IH Hrest) as (rows' & -> & Hscan).
    eexists. split; [done|]. cbn [scan_last]. by rewrite Hc.
Qed.

Lemma update_last_inv now cid new_status rows rows' :
  update_last now cid new_status rows = Ret (Some rows') →
  ∃ row,
    scan_last cid rows = Ret (Some row)
    ∧ scan_last cid rows' = Ret (Some (stamp_status now new_status row)).
Proof.
  revert rows'.
  induction rows as [|[r|] rows IH]; intros rows'; cbn [scan_last update_last];
    [done| |done].
  destruct (is_client cid r) eqn:Hc.
  - intros [= <-]. eexists. split; [done|].
    cbn [scan_last]. by rewrite is_client_stamp_status, Hc.
  - destruct (update_last now cid new_status rows) as [[rest'|]|] eqn:Hup; [|done..].
    intros [= <-]. destruct (IH _ eq_refl) as (row & -> & Hscan).
    eexists. split; [done|]. cbn [scan_last]. by rewrite Hc.
Qed.

(** No record of the client: nothing is written. *)
Lemma update_order_status_none now w fs client_id new_status :
  get_last_order_for_client fs client_id = Ret None →
  update_order_status now w fs client_id new_status = (Ret false, fs).
Proof.
  unfold get_last_order_for_client, update_order_status.
  intros Hnone. by rewrite (update_last_none _ _ _ _ Hnone).
Qed.

(** A record of the client and a write that completes: the current record
    is re-stamped. *)
Lemma update_order_status_some now fs client_id new_status row :
  get_last_order_for_client fs client_id = Ret (Some row) →
  ∃ fs',
    update_order_status now WriteOk fs client_id new_status = (Ret true, fs')
    ∧ get_last_order_for_client fs' client_id
      = Ret (Some (stamp_status now new_status row)).
Proof.
  unfold get_last_order_for_client, update_order_status.
  intros Hsome.
  destruct (update_last_some now _ new_status _ _ Hsome) as (rows' & -> & Hscan).
  cbn [save_orders]. eexists. split; [done|].
  cbn [load_orders]. by rewrite reverse_involutive.
Qed.

(** A committed update leaves the new status on the current record. *)
Lemma update_order_status_committed now w fs client_id new_status fs' :
  update_order_status now w fs client_id new_status = (Ret true, fs') →
  ∃ row,
    get_last_order_for_client fs client_id = Ret (Some row)
    ∧ get_last_order_for_client fs' client_id
      = Ret (Some (stamp_status now new_status row))
    ∧ get_order_status fs' client_id = Ret (PStr new_status).
Proof.
  unfold get_order_status, get_last_order_for_client, update_order_status.
  destruct (update_last now (pretty client_id) new_status (reverse (load_orders fs)))
    as [[rows'|]|] eqn:Hup; [|done..].
  destruct (update_last_inv _ _ _ _ _ Hup) as (row & Hscan & Hscan').
  destruct w; cbn [save_orders]; [|done..].
  intros [= <-]. exists row. cbn [load_orders].
  rewrite reverse_involutive, Hscan'. by rewrite get_status_stamp_status.
Qed.

End StatusUpdate.

(** ** Operator commands *)

Section OperatorCommands.
Context `{Platform}.

Lemma with_ledger_same w : with_ledger (ledger w) w = w.
Proof. by destruct w. Qed.

Lemma admin_check_operator io c w :
  effective_chat c = Some ADMIN_CHAT_ID →
  admin_check io c w = (Ret true, w).
Proof.
  intros Hchat. unfold admin_check. rewrite Hchat.
  by rewrite bool_decide_eq_false_2 by (by intros ?).
Qed.

Lemma reply_command_operator io c body w :
  effective_chat c = Some ADMIN_CHAT_ID →
  outbox (reply_command io c body w).2
  = outbox w ++ delivered io [ReplyText ADMIN_CHAT_ID body]
  ∧ ledger (reply_command io c body w).2 = ledger w
  ∧ user_data (reply_command io c body w).2 = user_data w.
Proof.
  intros Hchat. unfold reply_command, transport, delivered. rewrite Hchat.
  destruct (deliver io (ReplyText ADMIN_CHAT_ID body)) eqn:Hd.
  - by rewrite filter_cons_True.
  - rewrite filter_cons_False by (by rewrite Hd). cbn. by rewrite app_nil_r.
Qed.

Lemma operator_handler_parsed k io c w arg0 arg1 rest client_id :
  effective_chat c = Some ADMIN_CHAT_ID →
  args c = arg0 :: arg1 :: rest →
  int_of_str (str_strip arg0) = Some client_id →
  operator_handler k io c w = command_body k io c client_id (arg1 :: rest) w.
Proof.
  intros Hchat Hargs Hint.
  destruct k; cbn [operator_handler]; unfold send_requisites, confirm_payment, command_body.
  all: unfold bind at 1; rewrite (admin_check_operator _ _ _ Hchat); cbn beta iota.
  all: cbn [negb]; rewrite Hargs, Hint; reflexivity.
Qed.

Lemma operator_handler_unparsed k io c w arg0 arg1 rest :
  effective_chat c = Some ADMIN_CHAT_ID →
  args c = arg0 :: arg1 :: rest →
  int_of_str (str_strip arg0) = None →
  operator_handler k io c w = reply_command io c msg_id_not_number w.
Proof.
  intros Hchat Hargs Hint.
  destruct k; cbn [operator_handler]; unfold send_requisites, confirm_payment.
  all: unfold bind at 1; rewrite (admin_check_operator _ _ _ Hchat); cbn beta iota.
  all: cbn [negb]; rewrite Hargs, Hint; reflexivity.
Qed.

Lemma do_update_order_status_run io client_id new_status w :
  do_update_order_status io client_id new_status w
  = ((update_order_status (clock io) (write io) (ledger w) client_id new_status).1,
     with_ledger
       (update_order_status (clock io) (write io) (ledger w) client_id new_status).2 w).
Proof.
  unfold do_update_order_status.
  by destruct (update_order_status (clock io) (write io) (ledger w) client_id new_status).
Qed.

Lemma command_body_run k io c client_id rest w :
  command_body k io c client_id rest w
  = let r := update_order_status (clock io) (write io) (ledger w) client_id
               (target_status k) in
    match r.1 with
    | Ret true =>
        try_except
          (transport io (SendMessage client_id (client_notice k rest)) ;;
           reply_command io c (success_report k client_id rest))
          (reply_command io c (failure_report k))
          (with_ledger r.2 w)
    | Ret false => reply_command io c (msg_no_order client_id) (with_ledger r.2 w)
    | Raise e => (Raise e, with_ledger r.2 w)
    end.
Proof.
  unfold command_body, bind at 1. rewrite do_update_order_status_run.
  by destruct (update_order_status _ _ _ _ _) as [[[]|] ?].
Qed.

Lemma notify_unsent io call (next handler : M unit) w :
  deliver io call = false →
  try_except (transport io call ;; next) handler w = handler w.
Proof. intros Hd. unfold try_except, bind, transport. by rewrite Hd. Qed.

Lemma notify_sent io call1 call2 (handler : M unit) w :
  deliver io call1 = true → deliver io call2 = true →
  try_except (transport io call1 ;; transport io call2) handler w
  = (Ret tt, with_sent call2 (with_sent call1 w)).
Proof. intros Hd1 Hd2. unfold try_except, bind, transport. by rewrite Hd1, Hd2. Qed.

(** C7. An operator command whose client id does not read as a number, or
    names a client with no current record, changes nothing in the ledger
    (nor in the session) and sends one reply, a diagnostic, to the operator
    chat. *)
Theorem operator_command_rejected k io c w arg0 arg1 rest :
  effective_chat c = Some ADMIN_CHAT_ID →
  args c = arg0 :: arg1 :: rest →
  (int_of_str (str_strip arg0) = None
   ∨ ∃ client_id, int_of_str (str_strip arg0) = Some client_id
       ∧ get_last_order_for_client (ledger w) client_id = Ret None) →
  let w' := (operator_handler k io c w).2 in
  ledger w' = ledger w
  ∧ user_data w' = user_data w
  ∧ outbox w'
    = outbox w ++ delivered io
        [ReplyText ADMIN_CHAT_ID
           match int_of_str (str_strip arg0) with
           | None => msg_id_not_number
           | Some client_id => msg_no_order client_id
           end].
Proof.
  intros Hchat Hargs [Hint|(client_id & Hint & Hnone)] w'; subst w'.
  - rewrite (operator_handler_unparsed _ _ _ _ _ _ _ Hchat Hargs Hint), Hint.
    destruct (reply_command_operator io c msg_id_not_number w Hchat) as (? & ? & ?).
    done.
  - rewrite (operator_handler_parsed _ _ _ _ _ _ _ _ Hchat Hargs Hint), Hint.
    rewrite command_body_run, (update_order_status_none _ _ _ _ _ Hnone).
    cbn [fst snd]. rewrite with_ledger_same.
    destruct (reply_command_operator io c (msg_no_order client_id) w Hchat) as (? & ? & ?).
    done.
Qed.

(** C8. Once either operator command has committed its status change, a
    failed send to the client undoes nothing: the ledger is the committed
    one, the current record shows the new status, and the only call made
    after the failed send is the report to the operator chat. *)
Theorem delivery_failure_keeps_commit k io c w arg0 arg1 rest client_id fs' :
  effective_chat c = Some ADMIN_CHAT_ID →
  args c = arg0 :: arg1 :: rest →
  int_of_str (str_strip arg0) = Some client_id →
  update_order_status (clock io) (write io) (ledger w) client_id (target_status k)
  = (Ret true, fs') →
  deliver io (SendMessage client_id (client_notice k (arg1 :: rest))) = false →
  let w' := (operator_handler k io c w).2 in
  ledger w' = fs'
  ∧ get_order_status (ledger w') client_id = Ret (PStr (target_status k))
  ∧ user_data w' = user_data w
  ∧ outbox w' = outbox w ++ delivered io [ReplyText ADMIN_CHAT_ID (failure_report k)].
Proof.
  intros Hchat Hargs Hint Hcommit Hsend w'; subst w'.
  rewrite (operator_handler_parsed _ _ _ _ _ _ _ _ Hchat Hargs Hint).
  rewrite command_body_run, Hcommit. cbn [fst snd].
  rewrite (notify_unsent _ _ _ _ _ Hsend).
  destruct (reply_command_operator io c (failure_report k) (with_ledger fs' w) Hchat)
    as (Hout & Hled & Hud).
  rewrite Hout, Hled, Hud. cbn [with_ledger ledger user_data outbox].
  destruct (update_order_status_committed _ _ _ _ _ _ Hcommit) as (row & _ & _ & Hstatus).
  done.
Qed.

(** C9. With a record of the client in the ledger, two runs of
    [send_requisites] one after the other both commit: after each the
    current record has status [waiting_payment], the client is sent the
    requisites and the operator the confirmation. The record's
    [status_updated_at] is the clock reading of the run that stamped it, so
    the second stamp is not earlier than the first. *)
Theorem send_requisites_twice io1 io2 c w arg0 arg1 rest client_id row :
  effective_chat c = Some ADMIN_CHAT_ID →
  args c = arg0 :: arg1 :: rest →
  int_of_str (str_strip arg0) = Some client_id →
  get_last_order_for_client (ledger w) client_id = Ret (Some row) →
  write io1 = WriteOk → write io2 = WriteOk →
  (∀ call, deliver io1 call = true) → (∀ call, deliver io2 call = true) →
  (∀ t, parse_iso_datetime (PStr (isoformat t)) = Some t) →
  (clock io1 ≤ clock io2)%Z →
  let w1 := (send_requisites io1 c w).2 in
  let w2 := (send_requisites io2 c w1).2 in
  let sent :=
    [SendMessage client_id (msg_requisites (html_escape (join_space (arg1 :: rest))));
     ReplyText ADMIN_CHAT_ID (msg_requisites_sent client_id)] in
  ∃ r1 r2 t1 t2,
    get_last_order_for_client (ledger w1) client_id = Ret (Some r1)
    ∧ get_last_order_for_client (ledger w2) client_id = Ret (Some r2)
    ∧ r1 = stamp_status (clock io1) "waiting_payment" row
    ∧ r2 = stamp_status (clock io2) "waiting_payment" r1
    ∧ get r1 "status" = PStr "waiting_payment"
    ∧ get r2 "status" = PStr "waiting_payment"
    ∧ outbox w1 = outbox w ++ sent
    ∧ outbox w2 = outbox w1 ++ sent
    ∧ parse_iso_datetime (get r1 "status_updated_at") = Some t1
    ∧ parse_iso_datetime (get r2 "status_updated_at") = Some t2
    ∧ (t1 ≤ t2)%Z.
Proof.
  intros Hchat Hargs Hint Hrow Hw1 Hw2 Hd1 Hd2 Hiso Hclock w1 w2 sent.
  assert (∀ io w0 r,
    write io = WriteOk → (∀ call, deliver io call = true) →
    get_last_order_for_client (ledger w0) client_id = Ret (Some r) →
    get_last_order_for_client (ledger (send_requisites io c w0).2) client_id
    = Ret (Some (stamp_status (clock io) "waiting_payment" r))
    ∧ outbox (send_requisites io c w0).2 = outbox w0 ++ sent) as Hrun.
  { intros io w0 r Hw Hd Hr.
    change (send_requisites io c w0) with (operator_handler SendReq io c w0).
    rewrite (operator_handler_parsed SendReq _ _ _ _ _ _ _ Hchat Hargs Hint).
    rewrite command_body_run, Hw.
    destruct (update_order_status_some (clock io) _ _ "waiting_payment" _ Hr)
      as (fs' & Hup & Hlast).
    cbn [target_status]. rewrite Hup. cbn [fst snd].
    unfold reply_command. rewrite Hchat, notify_sent by apply Hd.
    cbn [snd ledger outbox with_sent with_ledger]. split; [done|].
    by rewrite <- app_assoc. }
  destruct (Hrun io1 w _ Hw1 Hd1 Hrow) as [Hl1 Ho1].
  destruct (Hrun io2 w1 _ Hw2 Hd2 Hl1) as [Hl2 Ho2].
  eexists _, _, (clock io1), (clock io2).
  split; [exact Hl1|]. split; [exact Hl2|].
  rewrite !get_status_stamp_status, !get_updated_at_stamp_status, !Hiso.
  done.
Qed.

End OperatorCommands.

(** ** Saving the ledger *)

(** C5, as amended. A save that fails either could not open the file, and
    then the file is as it was, or failed after the file had been opened for
    writing, and then the earlier content is gone: the file is left cut
    short and is read back as an empty ledger. *)
Theorem failed_save_outcome w orders fs :
  (save_orders w orders fs).1 = false →
  (w = OpenFails ∧ (save_orders w orders fs).2 = fs)
  ∨ (w = DumpFails
     ∧ (save_orders w orders fs).2 = Some Unparsable
     ∧ load_orders (save_orders w orders fs).2 = []).
Proof. destruct w; cbn; [done|by left|by right]. Qed.

(** ** Text input *)

Section TextInput.
Context `{Platform}.

Lemma handle_user_input_dob io m w :
  user_data w !! "order_state" = Some AWAITING_DOB →
  handle_user_input io m w
  = let r := add_request (clock io) (write io) (ledger w) (from_id m) (username_of m)
               (staged_dob m w !! "selected_tariff_key") (staged_dob m w !! "fio")
               (staged_dob m w !! "dob") in
    if r.1 then
      reply_text io m msg_ask_photo
        {| ledger := r.2;
           user_data := <["order_state" := AWAITING_PHOTO]> (staged_dob m w);
           outbox := outbox w |}
    else
      (reply_text io m msg_save_failed ;; clear_user_data)
        {| ledger := r.2; user_data := staged_dob m w; outbox := outbox w |}.
Proof.
  intros Hstate. unfold handle_user_input, bind at 1, read_user_data.
  rewrite Hstate.
  rewrite bool_decide_eq_false_2 by done. rewrite bool_decide_eq_true_2 by done.
  unfold bind at 1, set_item at 1. unfold bind at 1, read_user_data.
  cbn [user_data with_user_data].
  unfold bind at 1, do_add_request. cbn [ledger with_user_data].
  fold (staged_dob m w).
  destruct (add_request _ _ _ _ _ _ _ _) as [[] fs]; cbn [negb fst snd]; [|done].
  unfold bind at 1, set_item at 1. reflexivity.
Qed.


End TextInput.

(** ** Media *)

Section Media.
Context `{Platform}.

Lemma escape_html_text s : s ≠ "" → escape_html (or_empty (PStr s)) = Ret (html_escape s).
Proof.
  intros Hs. unfold or_empty. cbn [truthy].
  by rewrite bool_decide_eq_false_2.
Qed.

Lemma truthy_text s : s ≠ "" → truthy (PStr s) = true.
Proof. intros Hs. cbn [truthy]. by rewrite bool_decide_eq_false_2. Qed.

Lemma handle_all_media_id_photo io m w row file_id tariff fio dob :
  user_data w !! "order_state" = Some AWAITING_PHOTO →
  get_last_order_for_client (ledger w) (from_id m) = Ret (Some row) →
  get row "status" = PStr "waiting_req" →
  get row "fio" = PStr fio → fio ≠ "" →
  get row "dob" = PStr dob → dob ≠ "" →
  get row "tariff_text" = PStr tariff → tariff ≠ "" →
  last (photo m) = Some file_id →
  handle_all_media io m w
  = forward_id_photo io m file_id (order_caption m tariff fio dob) w.
Proof.
  intros Hstate Hrow Hstatus Hfio Hfio' Hdob Hdob' Htariff Htariff' Hphoto.
  unfold handle_all_media.
  unfold bind at 1, read_ledger. unfold bind at 1, lift, get_order_status.
  rewrite Hrow, Hstatus. unfold bind at 1, read_user_data. rewrite Hstate.
  rewrite !bool_decide_eq_true_2 by done. cbn [andb]. rewrite Hphoto.
  unfold bind at 1. unfold bind at 1. rewrite Hrow.
  assert (order_incomplete (Some row) = false) as ->.
  { unfold order_incomplete. rewrite Hfio, Hdob, Htariff, !truthy_text by done.
    rewrite bool_decide_eq_false_2; [done|].
    intros ->. by rewrite lookup_empty in Hstatus || discriminate Hstatus. }
  cbn [default]. change (id row) with row.
  unfold bind at 1. rewrite Hfio, escape_html_text by done.
  unfold bind at 1. rewrite Hdob, escape_html_text by done.
  unfold bind at 1. rewrite Htariff, escape_html_text by done.
  reflexivity.
Qed.

Lemma kept_ret {A} (post : A → Prop) a : post a → ledger_kept post (ret a).
Proof. intros Hp w. split; [done|]. by intros ? [= <-]. Qed.

Lemma kept_bind {A B} (pre : A → Prop) (post : B → Prop) (p : M A) (k : A → M B) :
  ledger_kept pre p → (∀ a, pre a → ledger_kept post (k a)) →
  ledger_kept post (x <- p ;; k x).
Proof.
  intros Hp Hk w. unfold bind. destruct (Hp w) as [Hl Hr].
  destruct (p w) as [[a|e] w1]; cbn [fst snd] in *.
  - destruct (Hk a (Hr a eq_refl) w1) as [Hl' Hr']. split; [congruence|done].
  - done.
Qed.

Lemma kept_try {A} (post : A → Prop) (body handler : M A) :
  ledger_kept post body → ledger_kept post handler →
  ledger_kept post (try_except body handler).
Proof.
  intros Hb Hh w. unfold try_except. destruct (Hb w) as [Hl Hr].
  destruct (body w) as [[a|e] w1]; cbn [fst snd] in *.
  - done.
  - destruct (Hh w1) as [Hl' Hr']. split; [congruence|done].
Qed.

Lemma kept_lift {A} (o : outcome A) : ledger_kept (λ _, True) (lift o).
Proof. done. Qed.

Lemma kept_read_ledger : ledger_kept (λ _, True) read_ledger.
Proof. done. Qed.

Lemma kept_read_user_data : ledger_kept (λ _, True) read_user_data.
Proof. done. Qed.

Lemma kept_set_item key value : ledger_kept (λ _, True) (set_item key value).
Proof. done. Qed.

Lemma kept_transport io c : ledger_kept (λ _, deliver io c = true) (transport io c).
Proof. intros w. unfold transport. by destruct (deliver io c). Qed.

Lemma kept_reply io m body : ledger_kept (λ _, True) (reply_text io m body).
Proof. intros w. unfold reply_text, transport. by destruct (deliver io _). Qed.

Lemma kept_forward_blocked {A} io c (k : M A) (post : A → Prop) :
  deliver io c = false → ledger_kept post (transport io c ;; k).
Proof.
  intros Hd. eapply kept_bind; [apply kept_transport|].
  cbn beta. intros _ Hd'. congruence.
Qed.

Lemma handle_all_media_keeps_ledger io m :
  operator_unreachable io → ledger_kept (λ _, True) (handle_all_media io m).
Proof.
  intros Hfail. unfold handle_all_media.
  eapply kept_bind; [apply kept_read_ledger|]. intros fs _.
  eapply kept_bind; [apply kept_lift|]. intros status _.
  eapply kept_bind; [apply kept_read_user_data|]. intros ud _.
  cbv zeta. destruct (_ && _).
  - destruct (last (photo m)) as [file_id|]; [|apply kept_reply].
    eapply kept_bind; [apply kept_read_ledger|]. intros fs' _.
    eapply kept_bind; [apply kept_lift|]. intros last_order _.
    destruct (order_incomplete last_order).
    { eapply kept_bind; [apply kept_reply|]. intros _ _. apply kept_set_item. }
    eapply kept_bind; [apply kept_lift|]. intros safe_fio _.
    eapply kept_bind; [apply kept_lift|]. intros safe_dob _.
    eapply kept_bind; [apply kept_lift|]. intros safe_tariff _.
    apply (kept_bind (λ forwarded, forwarded = false)).
    + apply kept_try.
      * apply kept_forward_blocked, Hfail.
      * eapply kept_bind; [apply kept_reply|]. intros _ _. by apply kept_ret.
    + intros forwarded ->. by apply kept_ret.
  - destruct (_ || _); [|apply kept_reply].
    destruct (last (photo m)) as [file_id|], (document m) as [document_id|].
    4: apply kept_reply.
    all: apply kept_try; [|apply kept_reply].
    all: eapply kept_bind; [apply kept_transport|].
    all: cbn beta; intros _ Hd; by rewrite (proj1 (Hfail _ _)) in Hd
                                 || by rewrite (proj2 (Hfail _ _)) in Hd.
Qed.

Lemma reply_text_run io m body w :
  ledger (reply_text io m body w).2 = ledger w
  ∧ user_data (reply_text io m body w).2 = user_data w
  ∧ outbox (reply_text io m body w).2
    = outbox w ++ delivered io [ReplyText (chat_id m) body].
Proof.
  unfold reply_text, transport, delivered.
  destruct (deliver io (ReplyText (chat_id m) body)) eqn:Hd.
  - by rewrite filter_cons_True.
  - rewrite filter_cons_False by (by rewrite Hd). cbn. by rewrite app_nil_r.
Qed.

Lemma forward_id_photo_blocked io m file_id caption w :
  deliver io (SendPhoto ADMIN_CHAT_ID file_id caption) = false →
  (forward_id_photo io m file_id caption w).2
  = (reply_text io m msg_photo_forward_failed w).2.
Proof.
  intros Hd. unfold forward_id_photo, bind at 1, try_except, bind at 1, transport at 1.
  rewrite Hd. unfold bind, ret.
  by destruct (reply_text io m msg_photo_forward_failed w) as [[[]|] ?].
Qed.

Lemma handle_all_media_proof_blocked io m w status :
  operator_unreachable io →
  get_order_status (ledger w) (from_id m) = Ret (PStr status) →
  status = "waiting_payment" ∨ status = "waiting_confirm" →
  photo m ≠ [] ∨ document m ≠ None →
  handle_all_media io m w = reply_text io m msg_receipt_forward_failed w.
Proof.
  intros Hfail Hstatus Hs Hmedia. unfold handle_all_media.
  unfold bind at 1, read_ledger. unfold bind at 1, lift. rewrite Hstatus.
  unfold bind at 1, read_user_data.
  assert (bool_decide (PStr status = PStr "waiting_req") = false) as ->.
  { apply bool_decide_eq_false_2. by destruct Hs as [-> | ->]. }
  rewrite andb_false_r.
  assert (bool_decide (PStr status = PStr "waiting_payment")
          || bool_decide (PStr status = PStr "waiting_confirm") = true) as ->.
  { destruct Hs as [-> | ->]; [by rewrite bool_decide_eq_true_2|].
    rewrite (bool_decide_eq_true_2 (_ = PStr "waiting_confirm")) by done.
    apply orb_true_r. }
  destruct (last (photo m)) as [file_id|] eqn:Hphoto.
  - destruct (document m);
      apply notify_unsent, Hfail.
  - destruct (document m) as [document_id|] eqn:Hdoc.
    + apply notify_unsent, Hfail.
    + apply last_None in Hphoto. by destruct Hmedia.
Qed.

(** C2, as amended. In state [awaiting_photo], with the current record at
    [waiting_req] and holding name, date of birth and tariff text, a photo
    from the buyer is forwarded once to the operator channel, the current
    record goes to [waiting_payment] (the write completing), the buyer is
    thanked, and the session is left as it was: the state remains
    [awaiting_photo]. *)
Theorem id_photo_step io m w row file_id tariff fio dob :
  user_data w !! "order_state" = Some AWAITING_PHOTO →
  get_last_order_for_client (ledger w) (from_id m) = Ret (Some row) →
  get row "status" = PStr "waiting_req" →
  get row "fio" = PStr fio → fio ≠ "" →
  get row "dob" = PStr dob → dob ≠ "" →
  get row "tariff_text" = PStr tariff → tariff ≠ "" →
  last (photo m) = Some file_id →
  write io = WriteOk →
  (∀ call, deliver io call = true) →
  let w' := (handle_all_media io m w).2 in
  outbox w'
  = outbox w ++ [SendPhoto ADMIN_CHAT_ID file_id (order_caption m tariff fio dob);
                 ReplyText (chat_id m) msg_photo_received]
  ∧ get_last_order_for_client (ledger w') (from_id m)
    = Ret (Some (stamp_status (clock io) "waiting_payment" row))
  ∧ get_order_status (ledger w') (from_id m) = Ret (PStr "waiting_payment")
  ∧ user_data w' = user_data w
  ∧ user_data w' !! "order_state" = Some AWAITING_PHOTO.
Proof.
  intros Hstate Hrow Hstatus Hfio Hfio' Hdob Hdob' Htariff Htariff' Hphoto Hw Hd w'.
  subst w'.
  rewrite (handle_all_media_id_photo _ _ _ _ _ _ _ _ Hstate Hrow Hstatus
             Hfio Hfio' Hdob Hdob' Htariff Htariff' Hphoto).
  destruct (update_order_status_some (clock io) _ _ "waiting_payment" _ Hrow)
    as (fs' & Hup & Hlast).
  assert (forward_id_photo io m file_id (order_caption m tariff fio dob) w
          = (Ret tt,
             {| ledger := fs'; user_data := user_data w;
                outbox := (outbox w
                           ++ [SendPhoto ADMIN_CHAT_ID file_id
                                 (order_caption m tariff fio dob)])
                          ++ [ReplyText (chat_id m) msg_photo_received] |})) as ->.
  { unfold forward_id_photo, bind, try_except, reply_text, transport, ret.
    rewrite !Hd, do_update_order_status_run, Hw.
    cbn [ledger with_sent]. by rewrite Hup. }
  cbn [snd ledger user_data outbox].
  unfold get_order_status. rewrite Hlast, get_status_stamp_status.
  by rewrite <- app_assoc.
Qed.

(** C10. While forwarding to the operator channel fails, the media handler
    writes nothing to the ledger, whatever it was sent and in whatever
    state. In the two buyer transitions (the ID photo awaited with the
    current record complete and at [waiting_req]; a payment proof with the
    record at [waiting_payment] or [waiting_confirm]) the session is left
    as it was and the one call made after the failed forward is the retry
    message to the buyer. *)
Theorem forward_failure_leaves_ledger io m w :
  operator_unreachable io →
  let w' := (handle_all_media io m w).2 in
  ledger w' = ledger w
  ∧ (∀ row file_id tariff fio dob,
       user_data w !! "order_state" = Some AWAITING_PHOTO →
       get_last_order_for_client (ledger w) (from_id m) = Ret (Some row) →
       get row "status" = PStr "waiting_req" →
       get row "fio" = PStr fio → fio ≠ "" →
       get row "dob" = PStr dob → dob ≠ "" →
       get row "tariff_text" = PStr tariff → tariff ≠ "" →
       last (photo m) = Some file_id →
       user_data w' = user_data w
       ∧ outbox w'
         = outbox w ++ delivered io [ReplyText (chat_id m) msg_photo_forward_failed])
  ∧ (∀ status,
       get_order_status (ledger w) (from_id m) = Ret (PStr status) →
       status = "waiting_payment" ∨ status = "waiting_confirm" →
       photo m ≠ [] ∨ document m ≠ None →
       user_data w' = user_data w
       ∧ outbox w'
         = outbox w ++ delivered io [ReplyText (chat_id m) msg_receipt_forward_failed]).
Proof.
  intros Hfail w'. subst w'. split; [|split].
  - apply (handle_all_media_keeps_ledger io m Hfail w).
  - intros row file_id tariff fio dob Hstate Hrow Hstatus Hfio Hfio' Hdob Hdob'
      Htariff Htariff' Hphoto.
    rewrite (handle_all_media_id_photo _ _ _ _ _ _ _ _ Hstate Hrow Hstatus
               Hfio Hfio' Hdob Hdob' Htariff Htariff' Hphoto).
    rewrite forward_id_photo_blocked by apply Hfail.
    by destruct (reply_text_run io m msg_photo_forward_failed w) as (_ & ? & ?).
  - intros status Hstatus Hs Hmedia.
    rewrite (handle_all_media_proof_blocked _ _ _ _ Hfail Hstatus Hs Hmedia).
    by destruct (reply_text_run io m msg_receipt_forward_failed w) as (_ & ? & ?).
Qed.

End Media.

(** ** The statements at concrete inputs *)

Lemma example_instant_roundtrip t :
  @parse_iso_datetime example_platform (PStr (@isoformat example_platform t)) = Some t.
Proof.
  cbn [parse_iso_datetime fromisoformat isoformat example_platform].
  unfold instant_of_decimal, decimal_of_instant.
  rewrite NilZero.isi.
  - cbn. by rewrite DecimalZ.of_to.
  - destruct t; [done| |done]. cbn. intros [= Hnil].
    by apply DecimalPos.Unsigned.to_uint_nonnil in Hnil.
  - destruct t; [done|done|]. cbn. intros [= Hnil].
    by apply DecimalPos.Unsigned.to_uint_nonnil in Hnil.
Qed.

(** Ten records of client 123 inside the hour: the eleventh request is
    denied, and a record stamped exactly one hour ago changes nothing. *)
Lemma rate_limit_admits_below_ceiling_witness :
  let records := replicate 10 (@record_of example_platform example_request) in
  let boundary :=
    @record_of example_platform
      {| req_client := 123; req_username := "jane"; req_tariff := None;
         req_fio := None; req_dob := None; req_at := 1700000060000000 - 3600000000 |} in
  @check_request_limit example_platform 1700000060000000
    (Some (JsonList (Dict <$> records))) 123 = false
  ∧ @recent_requests example_platform 1700000060000000 123 (records ++ [boundary])
    = @recent_requests example_platform 1700000060000000 123 records.
Proof.
  intros records boundary.
  destruct (@rate_limit_admits_below_ceiling example_platform 1700000060000000 123 records)
    as (_ & Hboundary & _ & Hfull & _).
  split.
  - apply Hfull. vm_compute. reflexivity.
  - apply Hboundary. vm_compute. reflexivity.
Defined.

(** A record with an unreadable [created_at] between two records, and an
    element that is not a record. *)
Lemma rate_limit_fails_open_witness :
  let good := @record_of example_platform example_request in
  let bad := <["created_at" := PStr "yesterday"]> good in
  @check_request_limit example_platform 1700000060000000
    (Some (JsonList ([Dict good] ++ Dict bad :: [Dict good]))) 123
  = @check_request_limit example_platform 1700000060000000
      (Some (JsonList ([Dict good] ++ [Dict good]))) 123
  ∧ @check_request_limit example_platform 1700000060000000
      (Some (JsonList ([Dict good] ++ NotDict :: [Dict good]))) 123 = true.
Proof.
  intros good bad.
  destruct (@rate_limit_fails_open example_platform 1700000060000000 123
              [Dict good] [Dict good]) as (Hskip & Hraise & Hbody & _).
  split.
  - apply Hskip. vm_compute. reflexivity.
  - apply (Hraise _ AttributeError). exact Hbody.
Defined.

(** C5, as stated, fails: a save that fails while writing returns failure
    and leaves a file that no longer holds the earlier ledger. *)
Lemma failed_save_loses_ledger :
  let r := save_orders DumpFails
             (load_orders example_ledger
              ++ [Dict (@record_of example_platform example_request)])
             example_ledger in
  r.1 = false
  ∧ load_orders example_ledger ≠ []
  ∧ r.2 ≠ example_ledger
  ∧ load_orders r.2 = [].
Proof. cbn. repeat split; discriminate. Qed.

Lemma failed_save_outcome_witness :
  (save_orders DumpFails [] example_ledger).2 = Some Unparsable
  ∧ (save_orders OpenFails [] example_ledger).2 = example_ledger.
Proof.
  split.
  - destruct (failed_save_outcome DumpFails [] example_ledger eq_refl)
      as [[Hw _]|(_ & Hfile & _)]; [discriminate Hw|exact Hfile].
  - destruct (failed_save_outcome OpenFails [] example_ledger eq_refl)
      as [[_ Hfile]|(Hw & _)]; [exact Hfile|discriminate Hw].
Defined.



(** [confirm_payment(client_id=123, link="https://x/y")] and an unreadable
    client id, with no record in the ledger. *)
Lemma operator_command_rejected_witness :
  let c := example_command ["123"; "https://x/y"] in
  let c' := example_command ["12x"; "card 4444"] in
  let w := world_operator None in
  let w' := (@confirm_payment example_platform example_io c w).2 in
  let w'' := (@send_requisites example_platform example_io c' w).2 in
  (ledger w' = None ∧ outbox w' = [ReplyText (-1002003419071) (msg_no_order 123)])
  ∧ (ledger w'' = None ∧ outbox w'' = [ReplyText (-1002003419071) msg_id_not_number]).
Proof.
  intros c c' w w' w''. split.
  - destruct (@operator_command_rejected example_platform Confirm example_io c w
                "123" "https://x/y" [] eq_refl eq_refl) as (Hl & _ & Ho).
    { right. exists 123%Z. split; vm_compute; reflexivity. }
    split; [exact Hl|exact Ho].
  - destruct (@operator_command_rejected example_platform SendReq example_io c' w
                "12x" "card 4444" [] eq_refl eq_refl) as (Hl & _ & Ho).
    { left. vm_compute. reflexivity. }
    split; [exact Hl|exact Ho].
Defined.

(** The client has blocked the bot: the status change stays. *)
Lemma delivery_failure_keeps_commit_witness :
  let io := {| clock := clock example_io; write := WriteOk; deliver := unreachable 123 |} in
  let c := example_command ["123"; "https://x/y"] in
  let w' := (@confirm_payment example_platform io c (world_operator example_ledger)).2 in
  get_order_status (ledger w') 123 = Ret (PStr "completed")
  ∧ outbox w' = [ReplyText (-1002003419071) msg_product_not_sent].
Proof.
  intros io c w'.
  destruct (@delivery_failure_keeps_commit example_platform Confirm io c
              (world_operator example_ledger) "123" "https://x/y" [] 123
              (@update_order_status example_platform (clock io) WriteOk example_ledger
                 123 "completed").2)
    as (_ & Hstatus & _ & Hout).
  1-3: reflexivity.
  1-2: vm_compute; reflexivity.
  split; [exact Hstatus|exact Hout].
Defined.

(** Requisites sent twice, one minute apart. *)
Lemma send_requisites_twice_witness :
  let later := {| clock := clock example_io + 60000000; write := WriteOk;
                  deliver := all_delivered |} in
  let c := example_command ["123"; "card"; "4444"] in
  let w1 := (@send_requisites example_platform example_io c (world_operator example_ledger)).2 in
  let w2 := (@send_requisites example_platform later c w1).2 in
  ∃ r1 r2,
    get_last_order_for_client (ledger w1) 123 = Ret (Some r1)
    ∧ get_last_order_for_client (ledger w2) 123 = Ret (Some r2)
    ∧ get r1 "status" = PStr "waiting_payment"
    ∧ get r2 "status" = PStr "waiting_payment"
    ∧ @parse_iso_datetime example_platform (get r1 "status_updated_at")
      = Some 1700000060000000%Z
    ∧ @parse_iso_datetime example_platform (get r2 "status_updated_at")
      = Some 1700000120000000%Z.
Proof.
  intros later c w1 w2.
  destruct (@send_requisites_twice example_platform example_io later c
              (world_operator example_ledger) "123" "card" ["4444"] 123
              (@record_of example_platform example_request))
    as (r1 & r2 & t1 & t2 & Hl1 & Hl2 & Hr1 & Hr2 & Hs1 & Hs2 & _ & _ & Ht1 & Ht2 & _).
  1-3: reflexivity.
  1: vm_compute; reflexivity.
  1-2: reflexivity.
  1-2: intros; reflexivity.
  1: apply example_instant_roundtrip.
  1: vm_compute; discriminate.
  exists r1, r2. split; [exact Hl1|]. split; [exact Hl2|].
  split; [exact Hs1|]. split; [exact Hs2|].
  rewrite Hr2, Hr1.
  rewrite !(@get_updated_at_stamp_status example_platform).
  split; apply example_instant_roundtrip.
Defined.

(** The buyer's ID photo with everything working. *)
Lemma id_photo_step_witness :
  let w' := (@handle_all_media example_platform example_io example_photo
               world_awaiting_photo).2 in
  outbox w'
  = [SendPhoto (-1002003419071) "AgAD-large"
       (order_caption example_photo "30 днів — 70₴" "Jane Doe" "01.01.1990");
     ReplyText 123 msg_photo_received]
  ∧ get_order_status (ledger w') 123 = Ret (PStr "waiting_payment")
  ∧ user_data w' !! "order_state" = Some AWAITING_PHOTO.
Proof.
  intros w'.
  destruct (@id_photo_step example_platform example_io example_photo world_awaiting_photo
              (@record_of example_platform example_request) "AgAD-large"
              "30 днів — 70₴" "Jane Doe" "01.01.1990")
    as (Hout & _ & Hstatus & _ & Hstate);
    [try (vm_compute; reflexivity); try discriminate; intros; reflexivity..|].
  split; [exact Hout|]. split; [exact Hstatus|exact Hstate].
Defined.

(** C2, as stated, fails: at this input the premises hold, one photo is
    forwarded to the operator channel and the current record goes to
    [waiting_payment], but the session state is not reset to none: it is
    still [awaiting_photo]. *)
Lemma id_photo_step_keeps_session_state :
  let w := world_awaiting_photo in
  let w' := (@handle_all_media example_platform example_io example_photo w).2 in
  (user_data w !! "order_state" = Some AWAITING_PHOTO
   ∧ get_order_status (ledger w) 123 = Ret (PStr "waiting_req")
   ∧ (∃ row, get_last_order_for_client (ledger w) 123 = Ret (Some row)
        ∧ get row "fio" = PStr "Jane Doe"
        ∧ get row "dob" = PStr "01.01.1990"
        ∧ get row "tariff_text" = PStr "30 днів — 70₴")
   ∧ photo example_photo ≠ [])
  ∧ filter (λ c, recipient c = (-1002003419071)%Z) (outbox w')
    = [SendPhoto (-1002003419071) "AgAD-large"
         (order_caption example_photo "30 днів — 70₴" "Jane Doe"
            "01.01.1990")]
  ∧ get_order_status (ledger w') 123 = Ret (PStr "waiting_payment")
  ∧ user_data w' !! "order_state" = Some AWAITING_PHOTO
  ∧ user_data w' !! "order_state" ≠ None.
Proof.
  intros w w'. split; [|split; [|split; [|split]]].
  - split; [reflexivity|]. split; [vm_compute; reflexivity|].
    split; [|discriminate].
    exists (@record_of example_platform example_request).
    repeat split; vm_compute; reflexivity.
  - vm_compute. reflexivity.
  - vm_compute. reflexivity.
  - vm_compute. reflexivity.
  - vm_compute. discriminate.
Qed.

(** The operator channel out of reach: an ID photo, then a payment proof
    sent as a document. *)
Lemma forward_failure_leaves_ledger_witness :
  let io := {| clock := clock example_io; write := WriteOk;
               deliver := unreachable (-1002003419071) |} in
  let w1 := (@handle_all_media example_platform io example_photo world_awaiting_photo).2 in
  let paying :=
    world_operator
      (@update_order_status example_platform (clock io) WriteOk example_ledger 123
         "waiting_payment").2 in
  let receipt := {| chat_id := 123; from_id := 123; from_username := None; text := "";
                    photo := []; document := Some "BQAD-receipt" |} in
  let w2 := (@handle_all_media example_platform io receipt paying).2 in
  (ledger w1 = example_ledger
   ∧ outbox w1 = [ReplyText 123 msg_photo_forward_failed])
  ∧ (ledger w2 = ledger paying
     ∧ get_order_status (ledger w2) 123 = Ret (PStr "waiting_payment")
     ∧ outbox w2 = [ReplyText 123 msg_receipt_forward_failed]).
Proof.
  intros io w1 paying receipt w2.
  assert (@operator_unreachable example_platform io) as Hio by (by intros ??).
  split.
  - destruct (@forward_failure_leaves_ledger example_platform io example_photo
                world_awaiting_photo Hio) as (Hl & Hid & _).
    split; [exact Hl|].
    refine (proj2 (Hid (@record_of example_platform example_request) "AgAD-large"
                     "30 днів — 70₴" "Jane Doe" "01.01.1990" _ _ _ _ _ _ _ _ _ _));
      try (vm_compute; reflexivity); discriminate.
  - destruct (@forward_failure_leaves_ledger example_platform io receipt paying Hio)
      as (Hl & _ & Hproof).
    split; [exact Hl|]. split; [unfold w2; rewrite Hl; vm_compute; reflexivity|].
    refine (proj2 (Hproof "waiting_payment" _ _ _)).
    + vm_compute. reflexivity.
    + by left.
    + by right.
Defined.

(** * Further properties *)

(** ** The ledger under status updates *)

Section LedgerUpdates.
Context `{Platform}.

Lemma update_last_split now cid new_status rows rows' :
  update_last now cid new_status rows = Ret (Some rows') →
  ∃ skipped row rest,
    rows = skipped ++ Dict row :: rest
    ∧ rows' = skipped ++ Dict (stamp_status now new_status row) :: rest
    ∧ is_client cid row = true
    ∧ other_clients cid skipped.
Proof.
  revert rows'.
  induction rows as [|[r|] rows IH]; intros rows'; cbn [update_last]; [done| |done].
  destruct (is_client cid r) eqn:Hc.
  - intros [= <-]. exists [], r, rows. repeat split; [done|]. constructor.
  - destruct (update_last now cid new_status rows) as [[rest'|]|] eqn:Hup; [|done..].
    intros [= <-]. destruct (IH _ eq_refl) as (skipped & row & rest & -> & -> & Hrow & Hsk).
    exists (Dict r :: skipped), row, rest. repeat split; [done|].
    constructor; [by exists r|done].
Qed.

Lemma update_order_status_inv now w fs client_id new_status fs' :
  update_order_status now w fs client_id new_status = (Ret true, fs') →
  ∃ rows',
    update_last now (pretty client_id) new_status (reverse (load_orders fs)) = Ret (Some rows')
    ∧ w = WriteOk
    ∧ fs' = Some (JsonList (reverse rows')).
Proof.
  unfold update_order_status.
  destruct (update_last _ _ _ _) as [[rows'|]|]; [|done..].
  destruct w; cbn [save_orders]; [|done..].
  intros [= <-]. by exists rows'.
Qed.

Lemma update_order_status_split now w fs client_id new_status fs' :
  update_order_status now w fs client_id new_status = (Ret true, fs') →
  ∃ older row newer,
    load_orders fs = older ++ Dict row :: newer
    ∧ load_orders fs' = older ++ Dict (stamp_status now new_status row) :: newer
    ∧ is_client (pretty client_id) row = true
    ∧ other_clients (pretty client_id) newer.
Proof.
  intros Hup. destruct (update_order_status_inv _ _ _ _ _ _ Hup) as (rows' & Hlast & _ & ->).
  destruct (update_last_split _ _ _ _ _ Hlast) as (skipped & row & rest & Hrows & -> & Hrow & Hsk).
  exists (reverse rest), row, (reverse skipped).
  split; [|split; [|split; [done|]]].
  - rewrite <- (reverse_involutive (load_orders fs)), Hrows.
    by rewrite reverse_app, reverse_cons, <- app_assoc.
  - cbn [load_orders]. by rewrite reverse_app, reverse_cons, <- app_assoc.
  - unfold other_clients in *. by apply Forall_reverse.
Qed.

(** X1. A committed status update rewrites exactly one element of the
    ledger, the last record of the client: every element before and after
    it stays in place, the ledger keeps its length, and on the record
    itself only [status] and [status_updated_at] change. *)
Theorem update_order_status_rewrites_current now w fs client_id new_status fs' :
  update_order_status now w fs client_id new_status = (Ret true, fs') →
  ∃ older row newer,
    load_orders fs = older ++ Dict row :: newer
    ∧ load_orders fs' = older ++ Dict (stamp_status now new_status row) :: newer
    ∧ is_client (pretty client_id) row = true
    ∧ other_clients (pretty client_id) newer
    ∧ length (load_orders fs') = length (load_orders fs)
    ∧ ∀ key, key ≠ "status" → key ≠ "status_updated_at" →
        get (stamp_status now new_status row) key = get row key.
Proof.
  intros Hup.
  destruct (update_order_status_split _ _ _ _ _ _ Hup)
    as (older & row & newer & Hfs & Hfs' & Hrow & Hnewer).
  exists older, row, newer. repeat split; [done..| |].
  - rewrite Hfs, Hfs'. by rewrite !length_app.
  - intros key ??. by apply get_other_stamp_status.
Qed.

(** X2. [update_order_status] returns [True] exactly when the client has a
    current record and the write completes. *)
Theorem update_order_status_true_iff now w fs client_id new_status :
  (update_order_status now w fs client_id new_status).1 = Ret true
  <-> w = WriteOk ∧ ∃ row, get_last_order_for_client fs client_id = Ret (Some row).
Proof.
  split.
  - intros Hret.
    destruct (update_order_status now w fs client_id new_status) as [r fs'] eqn:Hup.
    cbn [fst] in Hret. subst r.
    destruct (update_order_status_inv _ _ _ _ _ _ Hup) as (rows' & Hlast & -> & _).
    split; [done|].
    destruct (update_last_inv _ _ _ _ _ Hlast) as (row & Hscan & _). by exists row.
  - intros [-> [row Hrow]].
    by destruct (update_order_status_some now _ _ new_status _ Hrow) as (fs' & -> & _).
Qed.

Lemma scan_last_other_clients cid rows rest :
  other_clients cid rows → scan_last cid (rows ++ rest) = scan_last cid rest.
Proof.
  induction 1 as [|e rows (row & -> & Hrow) _ IH]; [done|].
  cbn [app scan_last]. by rewrite Hrow.
Qed.

Lemma is_client_exclusive cid cid' row :
  cid' ≠ cid → is_client cid row = true → is_client cid' row = false.
Proof.
  unfold is_client. intros Hne Hc%bool_decide_eq_true.
  apply bool_decide_eq_false. congruence.
Qed.

Lemma scan_last_after_update now cid cid' new_status rows rows' :
  update_last now cid new_status rows = Ret (Some rows') →
  cid' ≠ cid → scan_last cid' rows' = scan_last cid' rows.
Proof.
  intros Hup Hne.
  destruct (update_last_split _ _ _ _ _ Hup) as (skipped & row & rest & -> & -> & Hrow & _).
  clear Hup. induction skipped as [|[r|] skipped IH]; cbn [app scan_last]; [|by rewrite IH|done].
  by rewrite is_client_stamp_status, (is_client_exclusive _ _ _ Hne Hrow).
Qed.

(** X3. A committed status update for one client leaves the current record
    of every other client as it was. *)
Theorem update_order_status_other_clients now w fs client_id new_status fs' other :
  update_order_status now w fs client_id new_status = (Ret true, fs') →
  other ≠ client_id →
  get_last_order_for_client fs' other = get_last_order_for_client fs other.
Proof.
  intros Hup Hne.
  destruct (update_order_status_inv _ _ _ _ _ _ Hup) as (rows' & Hlast & _ & ->).
  unfold get_last_order_for_client. cbn [load_orders]. rewrite reverse_involutive.
  apply (scan_last_after_update _ _ _ _ _ _ Hlast).
  intros Heq. by apply (inj pretty) in Heq.
Qed.

Lemma passed_over_stamp_status one_hour_ago cid now new_status row :
  passed_over one_hour_ago cid (stamp_status now new_status row)
  = passed_over one_hour_ago cid row.
Proof.
  unfold passed_over.
  by rewrite is_client_stamp_status, get_other_stamp_status.
Qed.

Lemma count_requests_replace one_hour_ago cid before row row' after count :
  passed_over one_hour_ago cid row' = passed_over one_hour_ago cid row →
  count_requests one_hour_ago cid (before ++ Dict row' :: after) count
  = count_requests one_hour_ago cid (before ++ Dict row :: after) count.
Proof.
  intros Hsame. revert count.
  induction before as [|[r|] before IH]; intros count; cbn [app].
  - by rewrite !count_requests_step, Hsame.
  - by rewrite !count_requests_step, IH.
  - done.
Qed.

(** X4. Status updates do not count against the limit: after a committed
    update the limiter decides for every client, at every instant, as it
    did before. *)
Theorem update_order_status_keeps_limit now w fs client_id new_status fs' at_time whom :
  update_order_status now w fs client_id new_status = (Ret true, fs') →
  check_request_limit at_time fs' whom = check_request_limit at_time fs whom.
Proof.
  intros Hup.
  destruct (update_order_status_split _ _ _ _ _ _ Hup)
    as (older & row & newer & Hfs & Hfs' & _ & _).
  unfold check_request_limit, check_request_limit_body. rewrite Hfs, Hfs'.
  by rewrite (count_requests_replace _ _ _ row) by apply passed_over_stamp_status.
Qed.

End LedgerUpdates.

(** ** The limiter and the ledger *)

Section LimiterLedger.
Context `{Platform}.

(** X5. The limit is per client and per hour: a record of another client,
    or one stamped an hour or more before the check, may stand anywhere in
    the ledger without changing the decision. *)
Theorem rate_limit_ignores_others_and_old now client_id before row after :
  (is_client (pretty client_id) row = false
   ∨ ∃ t, parse_iso_datetime (get row "created_at") = Some t ∧ (t ≤ now - one_hour)%Z) →
  check_request_limit now (Some (JsonList (before ++ Dict row :: after))) client_id
  = check_request_limit now (Some (JsonList (before ++ after))) client_id.
Proof.
  intros Hrow. unfold check_request_limit, check_request_limit_body. cbn [load_orders].
  rewrite count_requests_skip; [done|].
  unfold passed_over. destruct Hrow as [-> | (t & -> & Ht)]; [done|].
  rewrite bool_decide_eq_false_2 by lia. apply orb_true_r.
Qed.

Lemma in_window_new_request now t client_id username tariff_key fio dob whom :
  (∀ t, parse_iso_datetime (PStr (isoformat t)) = Some t) →
  in_window now whom (new_request t client_id username tariff_key fio dob)
  = bool_decide (client_id = whom) && bool_decide (now - one_hour < t)%Z.
Proof.
  intros Hiso. unfold in_window, is_client.
  change (get (new_request t client_id username tariff_key fio dob) "client_id")
    with (PStr (pretty client_id)).
  change (get (new_request t client_id username tariff_key fio dob) "created_at")
    with (PStr (isoformat t)).
  rewrite Hiso. cbn [py_str]. f_equal.
  apply bool_decide_ext. split; [apply (inj pretty)|by intros ->].
Qed.

(** X6. Each request that is saved counts once against its own client:
    after a successful [add_request] made at [t], a check at an instant less
    than one hour after [t] sees one more request for that client and the
    same number for every other client. *)
Theorem add_request_counts_once now t (records : list (gmap string pyval))
    client_id username tariff_key fio dob whom :
  (∀ t, parse_iso_datetime (PStr (isoformat t)) = Some t) →
  (now - one_hour < t)%Z →
  let fs := Some (JsonList (Dict <$> records)) in
  let fs' := (add_request t WriteOk fs client_id username tariff_key fio dob).2 in
  check_request_limit now fs' whom
  = bool_decide
      (Z.of_nat (recent_requests now whom records
                 + (if bool_decide (client_id = whom) then 1 else 0))
       < MAX_REQUESTS_PER_HOUR)%Z.
Proof.
  intros Hiso Ht fs fs'. subst fs fs'. unfold add_request. cbn [save_orders snd load_orders].
  change [Dict (new_request t client_id username tariff_key fio dob)]
    with (Dict <$> [new_request t client_id username tariff_key fio dob]).
  rewrite <- fmap_app, check_request_limit_records, recent_requests_app.
  do 3 f_equal. unfold recent_requests.
  rewrite filter_cons, filter_nil, (in_window_new_request _ _ _ _ _ _ _ _ Hiso).
  rewrite (bool_decide_eq_true_2 (now - one_hour < t)%Z) by done.
  rewrite andb_true_r. by repeat case_bool_decide.
Qed.

End LimiterLedger.

(** ** Text input and [/start] *)

Section Session.
Context `{Platform}.

(** X7. Text is ignored outside the two data-collection states: with the
    state absent, [awaiting_photo] or anything but [awaiting_fio] and
    [awaiting_dob], [handle_user_input] returns without a reply and changes
    neither the session nor the ledger. *)
Theorem text_ignored_outside_collection io m w :
  user_data w !! "order_state" ≠ Some AWAITING_FIO →
  user_data w !! "order_state" ≠ Some AWAITING_DOB →
  handle_user_input io m w = (Ret tt, w).
Proof.
  intros Hfio Hdob. unfold handle_user_input, bind, read_user_data.
  destruct (user_data w !! "order_state") as [state|]; [|done].
  rewrite !bool_decide_eq_false_2 by congruence. done.
Qed.

(** X8. In state [awaiting_fio] the stripped text is staged as the name and
    the state moves to [awaiting_dob], whether or not the next prompt can be
    delivered; nothing is written to the ledger. *)
Theorem fio_step_stages_name io m w :
  user_data w !! "order_state" = Some AWAITING_FIO →
  let w' := (handle_user_input io m w).2 in
  user_data w'
  = <["order_state" := AWAITING_DOB]> (<["fio" := str_strip (text m)]> (user_data w))
  ∧ ledger w' = ledger w
  ∧ outbox w' = outbox w ++ delivered io [ReplyText (chat_id m) msg_ask_dob].
Proof.
  intros Hstate w'. subst w'.
  assert (handle_user_input io m w
          = reply_text io m msg_ask_dob
              {| ledger := ledger w;
                 user_data := <["order_state" := AWAITING_DOB]>
                                (<["fio" := str_strip (text m)]> (user_data w));
                 outbox := outbox w |}) as ->.
  { unfold handle_user_input, bind at 1, read_user_data. rewrite Hstate.
    by rewrite bool_decide_eq_true_2. }
  match goal with |- context [reply_text io m msg_ask_dob ?w0] =>
    destruct (reply_text_run io m msg_ask_dob w0) as (Hl & Hu & Ho) end.
  by rewrite Hl, Hu, Ho.
Qed.

(** X9. [/start] empties the session whatever state it was in, even when
    the greeting cannot be delivered, and does not touch the ledger; text
    sent next is ignored. *)
Theorem start_abandons_flow io m io' m' w :
  let w' := (start io m w).2 in
  user_data w' = ∅
  ∧ ledger w' = ledger w
  ∧ outbox w' = outbox w ++ delivered io [ReplyText (chat_id m) msg_welcome]
  ∧ handle_user_input io' m' w' = (Ret tt, w').
Proof.
  intros w'. subst w'.
  assert (start io m w = reply_text io m msg_welcome (with_user_data ∅ w)) as -> by done.
  destruct (reply_text_run io m msg_welcome (with_user_data ∅ w)) as (Hl & Hu & Ho).
  rewrite Hl, Hu, Ho. repeat split.
  unfold handle_user_input, bind, read_user_data. by rewrite Hu.
Qed.

End Session.

(** ** Media outside the happy path *)

Section MediaEdges.
Context `{Platform}.

(** X10. Media that no step is waiting for (no order, an order already
    completed, or an order at [waiting_req] while the session is not at
    [awaiting_photo]) gets the start-over prompt and changes neither the
    ledger nor the session. *)
Theorem unexpected_media_changes_nothing io m w status :
  get_order_status (ledger w) (from_id m) = Ret status →
  status ≠ PStr "waiting_payment" →
  status ≠ PStr "waiting_confirm" →
  (user_data w !! "order_state" ≠ Some AWAITING_PHOTO ∨ status ≠ PStr "waiting_req") →
  let w' := (handle_all_media io m w).2 in
  ledger w' = ledger w
  ∧ user_data w' = user_data w
  ∧ outbox w' = outbox w ++ delivered io [ReplyText (chat_id m) msg_unexpected_media].
Proof.
  intros Hstatus Hwp Hwc Hid w'. subst w'.
  assert (handle_all_media io m w = reply_text io m msg_unexpected_media w) as ->.
  { unfold handle_all_media.
    unfold bind at 1, read_ledger. unfold bind at 1, lift. rewrite Hstatus.
    unfold bind at 1, read_user_data.
    assert (bool_decide (user_data w !! "order_state" = Some AWAITING_PHOTO)
            && bool_decide (status = PStr "waiting_req") = false) as ->.
    { destruct Hid; [by rewrite bool_decide_eq_false_2|].
      rewrite (bool_decide_eq_false_2 (status = _)) by done. apply andb_false_r. }
    by rewrite !bool_decide_eq_false_2. }
  by destruct (reply_text_run io m msg_unexpected_media w) as (? & ? & ?).
Qed.

(** X11. While the ID photo is awaited, a message without a photo (a
    document, say) gets the corrective prompt; the state stays
    [awaiting_photo] and the ledger is not touched. *)
Theorem id_photo_must_be_photo io m w :
  user_data w !! "order_state" = Some AWAITING_PHOTO →
  get_order_status (ledger w) (from_id m) = Ret (PStr "waiting_req") →
  photo m = [] →
  let w' := (handle_all_media io m w).2 in
  ledger w' = ledger w
  ∧ user_data w' = user_data w
  ∧ outbox w' = outbox w ++ delivered io [ReplyText (chat_id m) msg_photo_as_photo].
Proof.
  intros Hstate Hstatus Hphoto w'. subst w'.
  assert (handle_all_media io m w = reply_text io m msg_photo_as_photo w) as ->.
  { unfold handle_all_media.
    unfold bind at 1, read_ledger. unfold bind at 1, lift. rewrite Hstatus.
    unfold bind at 1, read_user_data. rewrite Hstate, Hphoto.
    rewrite !bool_decide_eq_true_2 by done. done. }
  by destruct (reply_text_run io m msg_photo_as_photo w) as (? & ? & ?).
Qed.

(** X12. A photo for a current record that lacks a name, a date of birth or
    a tariff text is not forwarded and the ledger is not touched: the one
    call attempted is the prompt to enter name and date first. The state
    goes back to [awaiting_fio] once that prompt is delivered; when sending
    it raises, the handler stops there and the session is left as it was,
    at [awaiting_photo]. *)
Theorem incomplete_record_restarts_collection io m w row file_id :
  user_data w !! "order_state" = Some AWAITING_PHOTO →
  get_last_order_for_client (ledger w) (from_id m) = Ret (Some row) →
  get row "status" = PStr "waiting_req" →
  last (photo m) = Some file_id →
  truthy (get row "fio") && truthy (get row "dob") && truthy (get row "tariff_text") = false →
  let w' := (handle_all_media io m w).2 in
  ledger w' = ledger w
  ∧ outbox w' = outbox w ++ delivered io [ReplyText (chat_id m) msg_fio_dob_first]
  ∧ user_data w'
    = (if deliver io (ReplyText (chat_id m) msg_fio_dob_first)
       then <["order_state" := AWAITING_FIO]> (user_data w)
       else user_data w)
  ∧ (handle_all_media io m w).1
    = (if deliver io (ReplyText (chat_id m) msg_fio_dob_first)
       then Ret tt else Raise TransportError).
Proof.
  intros Hstate Hrow Hstatus Hphoto Hfields w'. subst w'.
  assert (handle_all_media io m w
          = (reply_text io m msg_fio_dob_first ;; set_item "order_state" AWAITING_FIO) w)
    as ->.
  { unfold handle_all_media.
    unfold bind at 1, read_ledger. unfold bind at 1, lift, get_order_status.
    rewrite Hrow, Hstatus. unfold bind at 1, read_user_data. rewrite Hstate.
    rewrite !bool_decide_eq_true_2 by done. cbn [andb]. rewrite Hphoto.
    unfold bind at 1. unfold bind at 1. rewrite Hrow.
    unfold order_incomplete. rewrite Hfields. by rewrite orb_true_r. }
  unfold bind, reply_text, transport, set_item, delivered.
  destruct (deliver io (ReplyText (chat_id m) msg_fio_dob_first)) eqn:Hd.
  - by rewrite filter_cons_True.
  - rewrite filter_cons_False by (by rewrite Hd). cbn. by rewrite app_nil_r.
Qed.

Lemma handle_all_media_proof io m w status forward :
  get_order_status (ledger w) (from_id m) = Ret (PStr status) →
  status = "waiting_payment" ∨ status = "waiting_confirm" →
  proof_forward m = Some forward →
  handle_all_media io m w
  = try_except
      (transport io forward ;;
       do_update_order_status io (from_id m) "waiting_confirm" ;;
       reply_text io m msg_payment_checking)
      (reply_text io m msg_receipt_forward_failed) w.
Proof.
  intros Hstatus Hs Hforward. unfold handle_all_media.
  unfold bind at 1, read_ledger. unfold bind at 1, lift. rewrite Hstatus.
  unfold bind at 1, read_user_data.
  assert (bool_decide (PStr status = PStr "waiting_req") = false) as ->.
  { apply bool_decide_eq_false_2. by destruct Hs as [-> | ->]. }
  rewrite andb_false_r.
  assert (bool_decide (PStr status = PStr "waiting_payment")
          || bool_decide (PStr status = PStr "waiting_confirm") = true) as ->.
  { destruct Hs as [-> | ->]; [by rewrite bool_decide_eq_true_2|].
    rewrite (bool_decide_eq_true_2 (_ = PStr "waiting_confirm")) by done.
    apply orb_true_r. }
  unfold proof_forward in Hforward.
  destruct (last (photo m)) as [photo_id|], (document m) as [document_id|];
    by inversion Hforward.
Qed.

Lemma proof_step_forwarded io m w forward :
  deliver io forward = true →
  try_except
    (transport io forward ;;
     do_update_order_status io (from_id m) "waiting_confirm" ;;
     reply_text io m msg_payment_checking)
    (reply_text io m msg_receipt_forward_failed) w
  = let r := update_order_status (clock io) (write io) (ledger w) (from_id m)
               "waiting_confirm" in
    let w1 := with_ledger r.2 (with_sent forward w) in
    match r.1 with
    | Ret _ =>
        if deliver io (ReplyText (chat_id m) msg_payment_checking)
        then (Ret tt, with_sent (ReplyText (chat_id m) msg_payment_checking) w1)
        else reply_text io m msg_receipt_forward_failed w1
    | Raise _ => reply_text io m msg_receipt_forward_failed w1
    end.
Proof.
  intros Hd. unfold try_except, bind at 1, transport at 1. rewrite Hd.
  unfold bind at 1. rewrite do_update_order_status_run. cbn [ledger with_sent].
  destruct (update_order_status _ _ _ _ _) as [[ok|e] fs']; cbn [fst snd]; [|done].
  unfold reply_text at 1, transport at 1.
  by destruct (deliver io (ReplyText (chat_id m) msg_payment_checking)).
Qed.

(** X13. A payment proof for a record at [waiting_payment] or
    [waiting_confirm] is forwarded once to the operator channel (the
    largest size of the photo when there is a photo, else the document),
    the record goes to [waiting_confirm] and the buyer is told the payment
    is being checked; the session is left as it was. *)
Theorem payment_proof_step io m w row status forward :
  get_last_order_for_client (ledger w) (from_id m) = Ret (Some row) →
  get row "status" = PStr status →
  status = "waiting_payment" ∨ status = "waiting_confirm" →
  proof_forward m = Some forward →
  write io = WriteOk →
  (∀ call, deliver io call = true) →
  let w' := (handle_all_media io m w).2 in
  outbox w' = outbox w ++ [forward; ReplyText (chat_id m) msg_payment_checking]
  ∧ get_last_order_for_client (ledger w') (from_id m)
    = Ret (Some (stamp_status (clock io) "waiting_confirm" row))
  ∧ user_data w' = user_data w.
Proof.
  intros Hrow Hstatus Hs Hforward Hw Hd w'. subst w'.
  rewrite (handle_all_media_proof io m w status forward); [|by unfold get_order_status; rewrite Hrow, Hstatus|done..].
  rewrite proof_step_forwarded by apply Hd. rewrite Hw, Hd.
  destruct (update_order_status_some (clock io) _ _ "waiting_confirm" _ Hrow)
    as (fs' & -> & Hlast).
  cbn [fst snd ledger user_data outbox with_sent with_ledger].
  by rewrite <- app_assoc.
Qed.

(** X14. The media handler does not look at the result of the status
    update. When the ledger file cannot be opened for writing, a payment
    proof is still forwarded and the buyer is still told the payment is
    being checked, while the ledger, and with it the status, stays as it
    was. *)
Theorem payment_proof_write_failure_unnoticed io m w row status forward :
  get_last_order_for_client (ledger w) (from_id m) = Ret (Some row) →
  get row "status" = PStr status →
  status = "waiting_payment" ∨ status = "waiting_confirm" →
  proof_forward m = Some forward →
  write io = OpenFails →
  (∀ call, deliver io call = true) →
  let w' := (handle_all_media io m w).2 in
  outbox w' = outbox w ++ [forward; ReplyText (chat_id m) msg_payment_checking]
  ∧ ledger w' = ledger w
  ∧ user_data w' = user_data w.
Proof.
  intros Hrow Hstatus Hs Hforward Hw Hd w'. subst w'.
  rewrite (handle_all_media_proof io m w status forward); [|by unfold get_order_status; rewrite Hrow, Hstatus|done..].
  rewrite proof_step_forwarded by apply Hd. rewrite Hw, Hd.
  unfold update_order_status. unfold get_last_order_for_client in Hrow.
  destruct (update_last_some (clock io) _ "waiting_confirm" _ _ Hrow) as (rows' & -> & _).
  cbn [save_orders fst snd ledger user_data outbox with_sent with_ledger].
  by rewrite <- app_assoc.
Qed.

(** X15. The acknowledgement is sent inside the same [try] as the forward.
    When the proof has been forwarded and the status saved but the
    acknowledgement cannot be delivered, the handler falls into the error
    branch: the record stays at [waiting_confirm], the forward is not taken
    back, and the only further call is the retry message. *)
Theorem payment_proof_ack_failure io m w row status forward :
  get_last_order_for_client (ledger w) (from_id m) = Ret (Some row) →
  get row "status" = PStr status →
  status = "waiting_payment" ∨ status = "waiting_confirm" →
  proof_forward m = Some forward →
  write io = WriteOk →
  deliver io forward = true →
  deliver io (ReplyText (chat_id m) msg_payment_checking) = false →
  let w' := (handle_all_media io m w).2 in
  outbox w'
  = outbox w ++ forward :: delivered io [ReplyText (chat_id m) msg_receipt_forward_failed]
  ∧ get_order_status (ledger w') (from_id m) = Ret (PStr "waiting_confirm")
  ∧ user_data w' = user_data w.
Proof.
  intros Hrow Hstatus Hs Hforward Hw Hd Hack w'. subst w'.
  rewrite (handle_all_media_proof io m w status forward); [|by unfold get_order_status; rewrite Hrow, Hstatus|done..].
  rewrite proof_step_forwarded by apply Hd. rewrite Hw, Hack.
  destruct (update_order_status_some (clock io) _ _ "waiting_confirm" _ Hrow)
    as (fs' & -> & Hlast).
  cbn [fst snd].
  match goal with |- context [reply_text io m msg_receipt_forward_failed ?w0] =>
    destruct (reply_text_run io m msg_receipt_forward_failed w0) as (Hl & Hu & Ho) end.
  rewrite Hl, Hu, Ho. cbn [ledger user_data outbox with_sent with_ledger].
  unfold get_order_status. rewrite Hlast, get_status_stamp_status.
  by rewrite <- app_assoc.
Qed.

End MediaEdges.

(** ** Operator commands outside the claims *)

Section OperatorEdges.
Context `{Platform}.

(** X16. A command from any chat but the operator's is refused: nothing is
    written, the only call is the refusal sent to the calling chat, and the
    handler returns normally even when that reply cannot be delivered. An
    update without a chat is dropped in silence. *)
Theorem command_refused_outside_operator_chat k io c w :
  effective_chat c ≠ Some ADMIN_CHAT_ID →
  operator_handler k io c w
  = (Ret tt,
     match effective_chat c with
     | Some chat =>
         if deliver io (ReplyText chat msg_admin_only)
         then with_sent (ReplyText chat msg_admin_only) w else w
     | None => w
     end).
Proof.
  intros Hchat.
  assert (admin_check io c w
          = (Ret false,
             match effective_chat c with
             | Some chat =>
                 if deliver io (ReplyText chat msg_admin_only)
                 then with_sent (ReplyText chat msg_admin_only) w else w
             | None => w
             end)) as Hcheck.
  { unfold admin_check. destruct (effective_chat c) as [chat|]; [|done].
    rewrite bool_decide_eq_true_2 by congruence.
    unfold bind, try_except, transport, ret.
    by destruct (deliver io (ReplyText chat msg_admin_only)). }
  destruct k; cbn [operator_handler]; unfold send_requisites, confirm_payment, bind;
    by rewrite Hcheck.
Qed.

(** X17. A command with fewer than two arguments gets the usage line and
    changes nothing. *)
Theorem command_needs_two_arguments k io c w :
  effective_chat c = Some ADMIN_CHAT_ID →
  length (args c) < 2 →
  let w' := (operator_handler k io c w).2 in
  ledger w' = ledger w
  ∧ user_data w' = user_data w
  ∧ outbox w' = outbox w ++ delivered io [ReplyText ADMIN_CHAT_ID (usage_text k)].
Proof.
  intros Hchat Hargs w'. subst w'.
  assert (operator_handler k io c w = reply_command io c (usage_text k) w) as ->.
  { destruct k; cbn [operator_handler]; unfold send_requisites, confirm_payment.
    all: unfold bind at 1; rewrite (admin_check_operator _ _ _ Hchat); cbn beta iota.
    all: cbn [negb]; destruct (args c) as [|? [|? ?]]; cbn in Hargs; try lia; done. }
  destruct (reply_command_operator io c (usage_text k) w Hchat) as (? & ? & ?).
  done.
Qed.

(** X18. Either command acts on the current record whatever its status:
    with a record of the client in the ledger, the write completing and the
    transport working, the record takes the command's status, the client is
    sent the notice and the operator the report. *)
Theorem command_sets_status_from_any io k c w arg0 arg1 rest client_id row :
  effective_chat c = Some ADMIN_CHAT_ID →
  args c = arg0 :: arg1 :: rest →
  int_of_str (str_strip arg0) = Some client_id →
  get_last_order_for_client (ledger w) client_id = Ret (Some row) →
  write io = WriteOk →
  (∀ call, deliver io call = true) →
  let w' := (operator_handler k io c w).2 in
  get_last_order_for_client (ledger w') client_id
  = Ret (Some (stamp_status (clock io) (target_status k) row))
  ∧ get_order_status (ledger w') client_id = Ret (PStr (target_status k))
  ∧ user_data w' = user_data w
  ∧ outbox w'
    = outbox w ++ [SendMessage client_id (client_notice k (arg1 :: rest));
                   ReplyText ADMIN_CHAT_ID (success_report k client_id (arg1 :: rest))].
Proof.
  intros Hchat Hargs Hint Hrow Hw Hd w'. subst w'.
  rewrite (operator_handler_parsed _ _ _ _ _ _ _ _ Hchat Hargs Hint).
  rewrite command_body_run, Hw.
  destruct (update_order_status_some (clock io) _ _ (target_status k) _ Hrow)
    as (fs' & -> & Hlast).
  cbn [fst snd]. unfold reply_command. rewrite Hchat, notify_sent by apply Hd.
  cbn [snd ledger user_data outbox with_sent with_ledger].
  unfold get_order_status. rewrite Hlast, get_status_stamp_status.
  by rewrite <- app_assoc.
Qed.

(** X19. When the record exists but the write fails, the operator is told
    that no order was found and the client is sent nothing. The ledger is
    as before when the file could not be opened, and cut short when the
    write was interrupted. *)
Theorem command_write_failure_reads_not_found io k c w arg0 arg1 rest client_id row :
  effective_chat c = Some ADMIN_CHAT_ID →
  args c = arg0 :: arg1 :: rest →
  int_of_str (str_strip arg0) = Some client_id →
  get_last_order_for_client (ledger w) client_id = Ret (Some row) →
  write io ≠ WriteOk →
  let w' := (operator_handler k io c w).2 in
  ledger w' = match write io with OpenFails => ledger w | _ => Some Unparsable end
  ∧ user_data w' = user_data w
  ∧ outbox w' = outbox w ++ delivered io [ReplyText ADMIN_CHAT_ID (msg_no_order client_id)].
Proof.
  intros Hchat Hargs Hint Hrow Hw w'. subst w'.
  rewrite (operator_handler_parsed _ _ _ _ _ _ _ _ Hchat Hargs Hint).
  rewrite command_body_run.
  unfold update_order_status. unfold get_last_order_for_client in Hrow.
  destruct (update_last_some (clock io) _ (target_status k) _ _ Hrow) as (rows' & -> & _).
  destruct (write io) eqn:Hwrite; [done| |]; cbn [save_orders fst snd];
    match goal with |- context [reply_command io c ?body ?w0] =>
      destruct (reply_command_operator io c body w0 Hchat) as (Hl & Hu & Ho) end;
    by rewrite Hl, Hu, Ho.
Qed.

Lemma session_kept_ret {A} (a : A) : session_kept (ret a).
Proof. done. Qed.

Lemma session_kept_bind {A B} (p : M A) (k : A → M B) :
  session_kept p → (∀ a, session_kept (k a)) → session_kept (x <- p ;; k x).
Proof.
  intros Hp Hk w. unfold bind. specialize (Hp w).
  destruct (p w) as [[a|e] w1]; cbn [snd] in *; [|done].
  by rewrite Hk.
Qed.

Lemma session_kept_try {A} (body handler : M A) :
  session_kept body → session_kept handler → session_kept (try_except body handler).
Proof.
  intros Hb Hh w. unfold try_except. specialize (Hb w).
  destruct (body w) as [[a|e] w1]; cbn [snd] in *; [done|].
  by rewrite Hh.
Qed.

Lemma session_kept_transport io c : session_kept (transport io c).
Proof. intros w. unfold transport. by destruct (deliver io c). Qed.

Lemma session_kept_reply_command io c body : session_kept (reply_command io c body).
Proof.
  unfold reply_command. destruct (effective_chat c); [apply session_kept_transport|done].
Qed.

Lemma session_kept_update io client_id new_status :
  session_kept (do_update_order_status io client_id new_status).
Proof. intros w. by rewrite do_update_order_status_run. Qed.

Lemma session_kept_admin_check io c : session_kept (admin_check io c).
Proof.
  unfold admin_check. destruct (effective_chat c) as [chat|]; [|done].
  case_bool_decide; [|done].
  apply session_kept_bind; [|done].
  apply session_kept_try; [apply session_kept_transport|done].
Qed.

(** X20. The operator commands never write to [context.user_data]: after
    either command, on any input, the caller's session data is what it
    was. *)
Theorem operator_commands_keep_session k io c w :
  user_data (operator_handler k io c w).2 = user_data w.
Proof.
  revert w. change (session_kept (operator_handler k io c)).
  destruct k; cbn [operator_handler]; unfold send_requisites, confirm_payment.
  all: apply session_kept_bind; [apply session_kept_admin_check|intros is_admin].
  all: destruct is_admin; cbn [negb]; [|done].
  all: destruct (args c) as [|arg0 [|arg1 rest]]; try apply session_kept_reply_command.
  all: destruct (int_of_str (str_strip arg0)) as [client_id|];
         [|apply session_kept_reply_command].
  all: apply session_kept_bind; [apply session_kept_update|intros ok].
  all: destruct ok; cbn [negb]; [|apply session_kept_reply_command].
  all: apply session_kept_try; [|apply session_kept_reply_command].
  all: apply session_kept_bind; [apply session_kept_transport|intros _].
  all: apply session_kept_reply_command.
Qed.

End OperatorEdges.

(** ** Choosing a tariff *)

Section TariffChoice.
Context `{Platform}.

(** X21. When the limiter admits, whatever follows the first colon of the
    callback data is staged as the tariff key, known or not, and the state
    becomes [awaiting_fio], whether or not the edited message goes through;
    the text names the tariff, or "unknown tariff" for a key outside the
    catalogue. *)
Theorem select_tariff_admitted io fs q ud tariff_key :
  query_deliver io AnswerQuery = true →
  after_colon (default "" (query_data q)) = Some tariff_key →
  check_request_limit (query_clock io) fs (query_from q) = true →
  let r := select_tariff io fs q ud in
  query_user_data r
  = <["order_state" := AWAITING_FIO]> (<["selected_tariff_key" := tariff_key]> ud)
  ∧ query_calls r
    = AnswerQuery
      :: filter (λ c, query_deliver io c = true)
           [EditMessageText
              (msg_tariff_chosen
                 (html_escape (default unknown_tariff_text (TARIFFS !! tariff_key))))].
Proof.
  intros Hanswer Hdata Hlimit r. subst r.
  unfold select_tariff. rewrite Hanswer. cbn [negb]. rewrite Hdata, Hlimit. cbn [negb].
  unfold edit_message_text.
  destruct (query_deliver io (EditMessageText _)) eqn:Hd; cbn [query_user_data query_calls].
  - by rewrite filter_cons_True.
  - by rewrite filter_cons_False by (by rewrite Hd).
Qed.

(** X22. In every other case the session is left as it was: when the query
    cannot be answered nothing more is done; callback data without a colon
    gets "unknown tariff"; a client over the limit gets the limit message. *)
Theorem select_tariff_otherwise_keeps_session io fs q ud :
  query_deliver io AnswerQuery = false
  ∨ after_colon (default "" (query_data q)) = None
  ∨ check_request_limit (query_clock io) fs (query_from q) = false →
  let r := select_tariff io fs q ud in
  query_user_data r = ud
  ∧ query_calls r
    = if query_deliver io AnswerQuery then
        AnswerQuery
        :: filter (λ c, query_deliver io c = true)
             [EditMessageText
                match after_colon (default "" (query_data q)) with
                | None => msg_unknown_tariff
                | Some _ => msg_limit_exceeded
                end]
      else [].
Proof.
  intros Hcase r. subst r. unfold select_tariff.
  destruct (query_deliver io AnswerQuery) eqn:Hanswer; cbn [negb]; [|done].
  assert (∀ body, query_user_data (edit_message_text io body ud [AnswerQuery]) = ud
                  ∧ query_calls (edit_message_text io body ud [AnswerQuery])
                    = AnswerQuery
                      :: filter (λ c, query_deliver io c = true) [EditMessageText body])
    as Hedit.
  { intros body. unfold edit_message_text.
    destruct (query_deliver io (EditMessageText body)) eqn:Hd;
      cbn [query_user_data query_calls].
    - by rewrite filter_cons_True.
    - by rewrite filter_cons_False by (by rewrite Hd). }
  destruct (after_colon (default "" (query_data q))) as [tariff_key|]; [|apply Hedit].
  destruct Hcase as [?|[?|Hlimit]]; [done..|].
  rewrite Hlimit. cbn [negb]. apply Hedit.
Qed.

End TariffChoice.

(** ** What a new record holds *)

Section NewRecord.
Context `{Platform}.

Lemma tariff_texts_filled key tariff_text : TARIFFS !! key = Some tariff_text → tariff_text ≠ "".
Proof.
  unfold TARIFFS. intros Hkey%elem_of_list_to_map_2.
  repeat (apply elem_of_cons in Hkey as [[= _ ->]|Hkey]; [done|]).
  by apply elem_of_nil in Hkey.
Qed.




End NewRecord.

(** ** Escaping *)

Lemma occurs_in_app c s1 s2 :
  occurs_in c (s1 +:+ s2) = occurs_in c s1 || occurs_in c s2.
Proof.
  induction s1 as [|a s1 IH]; [done|].
  change (String a s1 +:+ s2) with (String a (s1 +:+ s2)).
  cbn [occurs_in]. by rewrite IH, orb_assoc.
Qed.

Lemma html_escape_cons a s :
  html_escape (String a s)
  = (if Ascii.eqb a "&" then "&amp;"
     else if Ascii.eqb a "<" then "&lt;"
     else if Ascii.eqb a ">" then "&gt;"
     else if Ascii.eqb a "034" then "&quot;"
     else if Ascii.eqb a "'" then "&#x27;"
     else String a "") +:+ html_escape s.
Proof. done. Qed.

(** X24. Text that went through [html.escape] holds no angle bracket and no
    quote of either kind; text without any of the five replaced characters
    comes out as it went in. *)
Theorem html_escape_removes_markup s :
  (occurs_in "<" (html_escape s) = false
   ∧ occurs_in ">" (html_escape s) = false
   ∧ occurs_in "034" (html_escape s) = false
   ∧ occurs_in "'" (html_escape s) = false)
  ∧ ((∀ c, is_html_special c = true → occurs_in c s = false) → html_escape s = s).
Proof.
  split.
  - induction s as [|a s (IH1 & IH2 & IH3 & IH4)]; [done|].
    rewrite html_escape_cons, !occurs_in_app, IH1, IH2, IH3, IH4, !orb_false_r.
    destruct (Ascii.eqb a "&"); [done|].
    destruct (Ascii.eqb a "<") eqn:E1; [done|].
    destruct (Ascii.eqb a ">") eqn:E2; [done|].
    destruct (Ascii.eqb a "034") eqn:E3; [done|].
    destruct (Ascii.eqb a "'") eqn:E4; [done|].
    cbn [occurs_in]. rewrite !orb_false_r.
    by rewrite !(Ascii.eqb_sym _ a), E1, E2, E3, E4.
  - induction s as [|a s IH]; [done|]. intros Hplain.
    rewrite html_escape_cons, IH.
    2: { intros c Hc. specialize (Hplain c Hc). cbn [occurs_in] in Hplain.
         by apply orb_false_elim in Hplain as [_ ?]. }
    assert (is_html_special a = false) as Ha.
    { destruct (is_html_special a) eqn:Hs; [|done].
      specialize (Hplain a Hs). cbn [occurs_in] in Hplain.
      by rewrite Ascii.eqb_refl in Hplain. }
    unfold is_html_special in Ha. cbn [occurs_in] in Ha.
    destruct (Ascii.eqb a "&"); [done|].
    destruct (Ascii.eqb a "<"); [done|].
    destruct (Ascii.eqb a ">"); [done|].
    destruct (Ascii.eqb a "'"); [done|].
    by destruct (Ascii.eqb a "034").
Qed.

Lemma markdown_escape_head text c rest :
  markdown_escape text = String c rest → is_mdv2_char c = false.
Proof.
  destruct text as [|a text]; [done|]. cbn [markdown_escape].
  destruct (is_mdv2_char a) eqn:Ha; intros [= <- _]; done.
Qed.

Lemma markdown_unescape_escape text : markdown_unescape (markdown_escape text) = text.
Proof.
  induction text as [|a text IH]; [done|]. cbn [markdown_escape].
  destruct (is_mdv2_char a) eqn:Ha.
  - cbn [markdown_unescape]. by rewrite Ascii.eqb_refl, Ha, IH.
  - cbn [markdown_unescape].
    destruct (markdown_escape text) as [|c rest] eqn:Hesc.
    + by rewrite <- IH.
    + rewrite (markdown_escape_head _ _ _ Hesc), andb_false_r. by rewrite IH.
Qed.

(** X25. [escape_markdown_v2] never loses information on a text: dropping
    the backslash in front of each escaped character gives the text back.
    An absent text and the empty text both give the empty string. *)
Theorem escape_markdown_v2_reversible :
  (∀ text, markdown_unescape (escape_markdown_v2 (Some text)) = text)
  ∧ escape_markdown_v2 None = ""
  ∧ escape_markdown_v2 (Some "") = "".
Proof. split; [apply markdown_unescape_escape|done]. Qed.

(** X26. In the output of [escape_markdown_v2] every character of the
    escaped class stands immediately after a backslash. *)
Theorem escape_markdown_v2_escapes_all text n c :
  String.get n (escape_markdown_v2 (Some text)) = Some c →
  is_mdv2_char c = true →
  ∃ m, n = S m ∧ String.get m (escape_markdown_v2 (Some text)) = Some "\"%char.
Proof.
  cbn [escape_markdown_v2]. revert n.
  induction text as [|a text IH]; intros n; [by destruct n|].
  cbn [markdown_escape]. destruct (is_mdv2_char a) eqn:Ha.
  - destruct n as [|[|n]]; cbn [String.get].
    + intros [= <-] Hc. done.
    + intros _ _. by exists 0.
    + intros Hget Hc. destruct (IH n Hget Hc) as (m & -> & Hm).
      by exists (S (S m)).
  - destruct n as [|n]; cbn [String.get].
    + intros [= <-] Hc. congruence.
    + intros Hget Hc. destruct (IH n Hget Hc) as (m & -> & Hm).
      by exists (S m).
Qed.

(** ** Failures that leave a step half done *)

Section HalfDone.
Context `{Platform}.

(** X27. The session is cleared after the retry-later message, not before:
    when the append fails and that message cannot be delivered either, the
    handler ends in the exception with the date of birth staged and the
    state still [awaiting_dob]. *)
Theorem dob_step_reply_failure io m w :
  user_data w !! "order_state" = Some AWAITING_DOB →
  write io ≠ WriteOk →
  deliver io (ReplyText (chat_id m) msg_save_failed) = false →
  (handle_user_input io m w).1 = Raise TransportError
  ∧ user_data (handle_user_input io m w).2
    = <["dob" := str_strip (text m)]> (user_data w)
  ∧ user_data (handle_user_input io m w).2 !! "order_state" = Some AWAITING_DOB
  ∧ outbox (handle_user_input io m w).2 = outbox w.
Proof.
  intros Hstate Hw Hd. rewrite (handle_user_input_dob _ _ _ Hstate). cbv zeta.
  unfold add_request.
  assert ((save_orders (write io)
             (load_orders (ledger w)
              ++ [Dict (new_request (clock io) (from_id m) (username_of m)
                          (staged_dob m w !! "selected_tariff_key")
                          (staged_dob m w !! "fio") (staged_dob m w !! "dob"))])
             (ledger w)).1 = false) as ->
    by (by destruct (write io)).
  unfold bind, reply_text, transport. rewrite Hd.
  cbn [fst snd user_data outbox]. unfold staged_dob.
  rewrite lookup_insert_ne by done. done.
Qed.

Lemma scan_last_records_then client_id (records : list (gmap string pyval)) rest :
  scan_last (pretty client_id) (reverse (Dict <$> records) ++ rest)
  = match current_record client_id records with
    | Some row => Ret (Some row)
    | None => scan_last (pretty client_id) rest
    end.
Proof.
  unfold current_record.
  induction records as [|row records IH] using rev_ind; [done|].
  rewrite fmap_app, reverse_app. cbn [fmap list_fmap reverse rev_append app scan_last].
  rewrite filter_app. unfold is_client.
  case_bool_decide as Hc.
  - rewrite filter_cons_True by done. rewrite filter_nil.
    by rewrite last_snoc.
  - rewrite filter_cons_False by done. rewrite filter_nil, app_nil_r.
    apply IH.
Qed.

(** X28. The lookup reads the ledger from its end and stops at the first
    match: an element that is not a record does no harm to a client with a
    record after it, and turns the lookup of every other client into an
    [AttributeError], whatever stands before it. *)
Theorem lookup_stops_at_current_record older (records : list (gmap string pyval)) client_id :
  get_last_order_for_client
    (Some (JsonList (older ++ NotDict :: (Dict <$> records)))) client_id
  = match current_record client_id records with
    | Some row => Ret (Some row)
    | None => Raise AttributeError
    end.
Proof.
  unfold get_last_order_for_client. cbn [load_orders].
  rewrite reverse_app, reverse_cons, <- app_assoc.
  by rewrite scan_last_records_then.
Qed.

End HalfDone.

(** ** An order from the date of birth to delivery *)

Section Lifecycle.
Context `{Platform}.

Lemma update_order_status_works now fs client_id new_status row :
  get_last_order_for_client fs client_id = Ret (Some row) →
  let r := update_order_status now WriteOk fs client_id new_status in
  r.1 = Ret true
  ∧ get_last_order_for_client r.2 client_id = Ret (Some (stamp_status now new_status row))
  ∧ length (load_orders r.2) = length (load_orders fs).
Proof.
  intros Hrow r. subst r.
  destruct (update_order_status_some now _ _ new_status _ Hrow) as (fs' & Hup & Hlast).
  rewrite Hup. cbn [fst snd]. repeat split; [done|].
  destruct (update_order_status_split _ _ _ _ _ _ Hup) as (older & r & newer & -> & -> & _).
  by rewrite !length_app.
Qed.

Lemma dob_step_works io m w :
  works io →
  user_data w !! "order_state" = Some AWAITING_DOB →
  let w' := (handle_user_input io m w).2 in
  ledger w' = Some (JsonList (load_orders (ledger w) ++ [Dict (staged_record io m w)]))
  ∧ user_data w' = <["order_state" := AWAITING_PHOTO]> (staged_dob m w).
Proof.
  intros [Hw Hd] Hstate w'. subst w'.
  rewrite (handle_user_input_dob _ _ _ Hstate). cbv zeta.
  unfold add_request. rewrite Hw. cbn [save_orders fst snd].
  unfold reply_text, transport. by rewrite Hd.
Qed.

Lemma id_photo_step_works io m w row file_id tariff fio dob :
  works io →
  user_data w !! "order_state" = Some AWAITING_PHOTO →
  get_last_order_for_client (ledger w) (from_id m) = Ret (Some row) →
  get row "status" = PStr "waiting_req" →
  get row "fio" = PStr fio → fio ≠ "" →
  get row "dob" = PStr dob → dob ≠ "" →
  get row "tariff_text" = PStr tariff → tariff ≠ "" →
  last (photo m) = Some file_id →
  let w' := (handle_all_media io m w).2 in
  ledger w'
  = (update_order_status (clock io) WriteOk (ledger w) (from_id m) "waiting_payment").2
  ∧ user_data w' = user_data w.
Proof.
  intros [Hw Hd] Hstate Hrow Hstatus Hfio Hfio' Hdob Hdob' Htariff Htariff' Hphoto w'.
  subst w'.
  rewrite (handle_all_media_id_photo _ _ _ _ _ _ _ _ Hstate Hrow Hstatus
             Hfio Hfio' Hdob Hdob' Htariff Htariff' Hphoto).
  unfold forward_id_photo, bind, try_except, reply_text, transport, ret.
  rewrite !Hd, do_update_order_status_run, Hw. cbn [ledger with_sent].
  destruct (update_order_status_works (clock io) _ _ "waiting_payment" _ Hrow) as (-> & _).
  done.
Qed.

Lemma proof_step_works io m w row status forward :
  works io →
  get_last_order_for_client (ledger w) (from_id m) = Ret (Some row) →
  get row "status" = PStr status →
  status = "waiting_payment" ∨ status = "waiting_confirm" →
  proof_forward m = Some forward →
  ledger (handle_all_media io m w).2
  = (update_order_status (clock io) WriteOk (ledger w) (from_id m) "waiting_confirm").2.
Proof.
  intros [Hw Hd] Hrow Hstatus Hs Hforward.
  rewrite (handle_all_media_proof io m w status forward);
    [|by unfold get_order_status; rewrite Hrow, Hstatus|done..].
  rewrite proof_step_forwarded by apply Hd. rewrite Hw, Hd. cbv zeta.
  by destruct (update_order_status_works (clock io) _ _ "waiting_confirm" _ Hrow) as (-> & _).
Qed.

Lemma command_works k io c w arg0 arg1 rest client_id row :
  works io →
  effective_chat c = Some ADMIN_CHAT_ID →
  args c = arg0 :: arg1 :: rest →
  int_of_str (str_strip arg0) = Some client_id →
  get_last_order_for_client (ledger w) client_id = Ret (Some row) →
  ledger (operator_handler k io c w).2
  = (update_order_status (clock io) WriteOk (ledger w) client_id (target_status k)).2.
Proof.
  intros [Hw Hd] Hchat Hargs Hint Hrow.
  rewrite (operator_handler_parsed _ _ _ _ _ _ _ _ Hchat Hargs Hint).
  rewrite command_body_run, Hw. cbv zeta.
  destruct (update_order_status_works (clock io) _ _ (target_status k) _ Hrow) as (-> & _).
  unfold reply_command. rewrite Hchat, notify_sent by apply Hd.
  done.
Qed.

(** X29. The steps compose into the order's life. From state
    [awaiting_dob] with a catalogue tariff and a name staged, with every
    write and transport call working: the date of birth creates the record
    at [waiting_req], the ID photo takes it to [waiting_payment], the
    operator's requisites leave it there, the payment proof takes it to
    [waiting_confirm] and the operator's confirmation to [completed]. The
    ledger has grown by this one record, which still holds the name, date of
    birth, tariff text and creation time it was made with. *)
Theorem order_lifecycle io1 io2 io3 io4 io5 w0 dob_msg photo_msg proof_msg req_cmd ok_cmd
    client_id key tariff fio file_id forward arg_req text_req rest_req arg_ok link rest_ok :
  works io1 → works io2 → works io3 → works io4 → works io5 →
  from_id dob_msg = client_id → from_id photo_msg = client_id →
  from_id proof_msg = client_id →
  user_data w0 !! "order_state" = Some AWAITING_DOB →
  user_data w0 !! "selected_tariff_key" = Some key →
  TARIFFS !! key = Some tariff →
  user_data w0 !! "fio" = Some fio → fio ≠ "" →
  str_strip (text dob_msg) ≠ "" →
  last (photo photo_msg) = Some file_id →
  proof_forward proof_msg = Some forward →
  effective_chat req_cmd = Some ADMIN_CHAT_ID →
  args req_cmd = arg_req :: text_req :: rest_req →
  int_of_str (str_strip arg_req) = Some client_id →
  effective_chat ok_cmd = Some ADMIN_CHAT_ID →
  args ok_cmd = arg_ok :: link :: rest_ok →
  int_of_str (str_strip arg_ok) = Some client_id →
  let w1 := (handle_user_input io1 dob_msg w0).2 in
  let w2 := (handle_all_media io2 photo_msg w1).2 in
  let w3 := (send_requisites io3 req_cmd (world_operator (ledger w2))).2 in
  let w4 := (handle_all_media io4 proof_msg (with_ledger (ledger w3) w2)).2 in
  let w5 := (confirm_payment io5 ok_cmd (world_operator (ledger w4))).2 in
  get_order_status (ledger w1) client_id = Ret (PStr "waiting_req")
  ∧ get_order_status (ledger w2) client_id = Ret (PStr "waiting_payment")
  ∧ get_order_status (ledger w3) client_id = Ret (PStr "waiting_payment")
  ∧ get_order_status (ledger w4) client_id = Ret (PStr "waiting_confirm")
  ∧ get_order_status (ledger w5) client_id = Ret (PStr "completed")
  ∧ length (load_orders (ledger w5)) = S (length (load_orders (ledger w0)))
  ∧ ∃ row,
      get_last_order_for_client (ledger w5) client_id = Ret (Some row)
      ∧ get row "fio" = PStr fio
      ∧ get row "dob" = PStr (str_strip (text dob_msg))
      ∧ get row "tariff_text" = PStr tariff
      ∧ get row "created_at" = PStr (isoformat (clock io1))
      ∧ get row "status_updated_at" = PStr (isoformat (clock io5)).
Proof.
  intros Hio1 Hio2 Hio3 Hio4 Hio5 Hfrom1 Hfrom2 Hfrom3 Hstate Hkey Htariff Hfio Hfio' Hdob
    Hphoto Hforward Hchat3 Hargs3 Hint3 Hchat5 Hargs5 Hint5 w1 w2 w3 w4 w5.
  (* the date of birth *)
  destruct (dob_step_works io1 dob_msg w0 Hio1 Hstate) as [Hl1 Hu1].
  fold w1 in Hl1, Hu1.
  set (r0 := staged_record io1 dob_msg w0) in *.
  assert (staged_dob dob_msg w0 !! "selected_tariff_key" = Some key) as Hskey
    by (unfold staged_dob; by rewrite lookup_insert_ne).
  assert (staged_dob dob_msg w0 !! "fio" = Some fio) as Hsfio
    by (unfold staged_dob; by rewrite lookup_insert_ne).
  assert (staged_dob dob_msg w0 !! "dob" = Some (str_strip (text dob_msg))) as Hsdob
    by (unfold staged_dob; by rewrite lookup_insert_eq).
  assert (get r0 "status" = PStr "waiting_req") as Hr0s by done.
  assert (get r0 "fio" = PStr fio) as Hr0f.
  { subst r0. unfold staged_record. by rewrite Hsfio. }
  assert (get r0 "dob" = PStr (str_strip (text dob_msg))) as Hr0d.
  { subst r0. unfold staged_record. by rewrite Hsdob. }
  assert (get r0 "tariff_text" = PStr tariff) as Hr0t.
  { subst r0. unfold staged_record. rewrite Hskey.
    change (get (new_request _ _ _ (Some key) _ _) "tariff_text")
      with (tariff_text_of (Some key)).
    unfold tariff_text_of. case_bool_decide as Hk; [by subst key|].
    by rewrite Htariff. }
  assert (get r0 "created_at" = PStr (isoformat (clock io1))) as Hr0c by done.
  assert (get_last_order_for_client (ledger w1) client_id = Ret (Some r0)) as Hg1.
  { rewrite Hl1.
    pose proof (get_last_after_add (clock io1) (ledger w0) (from_id dob_msg)
                  (username_of dob_msg) (staged_dob dob_msg w0 !! "selected_tariff_key")
                  (staged_dob dob_msg w0 !! "fio") (staged_dob dob_msg w0 !! "dob")
                  client_id) as Hadd.
    rewrite bool_decide_eq_true_2 in Hadd by done. exact Hadd. }
  assert (length (load_orders (ledger w1)) = S (length (load_orders (ledger w0)))) as Hn1.
  { rewrite Hl1. cbn [load_orders]. rewrite length_app. cbn [length]. lia. }
  (* the ID photo *)
  assert (user_data w1 !! "order_state" = Some AWAITING_PHOTO) as Hstate1
    by (by rewrite Hu1, lookup_insert_eq).
  rewrite <- Hfrom2 in Hg1.
  destruct (id_photo_step_works io2 photo_msg w1 r0 file_id tariff fio
              (str_strip (text dob_msg)) Hio2 Hstate1 Hg1 Hr0s Hr0f Hfio' Hr0d Hdob Hr0t
              (tariff_texts_filled _ _ Htariff) Hphoto) as [Hl2 _].
  fold w2 in Hl2.
  destruct (update_order_status_works (clock io2) _ _ "waiting_payment" _ Hg1)
    as (_ & Hg2 & Hn2).
  rewrite <- Hl2 in Hg2, Hn2. rewrite Hfrom2 in Hg1, Hg2.
  (* the requisites *)
  pose proof (command_works SendReq io3 req_cmd (world_operator (ledger w2)) _ _ _ _ _
                Hio3 Hchat3 Hargs3 Hint3 Hg2) as Hl3.
  change (operator_handler SendReq io3 req_cmd (world_operator (ledger w2))).2 with w3 in Hl3.
  destruct (update_order_status_works (clock io3) _ _ "waiting_payment" _ Hg2)
    as (_ & Hg3 & Hn3).
  cbn [ledger world_operator target_status] in Hl3. rewrite <- Hl3 in Hg3, Hn3.
  (* the payment proof *)
  assert (get_last_order_for_client (ledger (with_ledger (ledger w3) w2)) (from_id proof_msg)
          = Ret (Some (stamp_status (clock io3) "waiting_payment"
                         (stamp_status (clock io2) "waiting_payment" r0)))) as Hg3'
    by (by rewrite Hfrom3).
  pose proof (proof_step_works io4 proof_msg (with_ledger (ledger w3) w2) _
                "waiting_payment" forward Hio4 Hg3'
                (get_status_stamp_status _ _ _) (or_introl eq_refl) Hforward) as Hl4.
  fold w4 in Hl4.
  destruct (update_order_status_works (clock io4) _ _ "waiting_confirm" _ Hg3')
    as (_ & Hg4 & Hn4).
  rewrite <- Hl4 in Hg4, Hn4. rewrite Hfrom3 in Hg4. cbn [ledger with_ledger] in Hn4.
  (* the confirmation *)
  pose proof (command_works Confirm io5 ok_cmd (world_operator (ledger w4)) _ _ _ _ _
                Hio5 Hchat5 Hargs5 Hint5 Hg4) as Hl5.
  change (operator_handler Confirm io5 ok_cmd (world_operator (ledger w4))).2 with w5 in Hl5.
  destruct (update_order_status_works (clock io5) _ _ "completed" _ Hg4)
    as (_ & Hg5 & Hn5).
  cbn [ledger world_operator target_status] in Hl5. rewrite <- Hl5 in Hg5, Hn5.
  unfold get_order_status. rewrite Hg1, Hg2, Hg3, Hg4, Hg5.
  rewrite !get_status_stamp_status, Hr0s.
  repeat split; [lia|].
  eexists. split; [done|].
  rewrite get_updated_at_stamp_status, !get_other_stamp_status by done.
  done.
Qed.

End Lifecycle.

(** ** The further properties at concrete inputs *)

Lemma update_order_status_rewrites_current_witness :
  ∃ older row newer,
    load_orders example_shared_ledger = older ++ Dict row :: newer
    ∧ load_orders example_paying_ledger
      = older ++ Dict (@stamp_status example_platform 1700000060000000
                         "waiting_payment" row) :: newer
    ∧ length newer = 1
    ∧ length (load_orders example_paying_ledger) = 2.
Proof.
  destruct (@update_order_status_rewrites_current example_platform 1700000060000000
              WriteOk example_shared_ledger 123 "waiting_payment" example_paying_ledger)
    as (older & row & newer & Hfs & Hfs' & _ & _ & _ & _).
  { vm_compute. reflexivity. }
  exists [], (@record_of example_platform example_request),
    [Dict (@record_of example_platform example_request_456)].
  repeat split; vm_compute; reflexivity.
Defined.

Lemma update_order_status_other_clients_witness :
  get_last_order_for_client example_paying_ledger 456
  = Ret (Some (@record_of example_platform example_request_456)).
Proof.
  rewrite (@update_order_status_other_clients example_platform 1700000060000000
             WriteOk example_shared_ledger 123 "waiting_payment" example_paying_ledger 456).
  - vm_compute. reflexivity.
  - vm_compute. reflexivity.
  - discriminate.
Defined.

Lemma update_order_status_keeps_limit_witness :
  @check_request_limit example_platform 1700000090000000 example_paying_ledger 123
  = @check_request_limit example_platform 1700000090000000 example_shared_ledger 123.
Proof.
  apply (@update_order_status_keeps_limit example_platform 1700000060000000
           WriteOk example_shared_ledger 123 "waiting_payment").
  vm_compute. reflexivity.
Defined.

Lemma rate_limit_ignores_others_and_old_witness :
  let mine := @record_of example_platform example_request in
  let theirs := @record_of example_platform example_request_456 in
  @check_request_limit example_platform 1700000060000000
    (Some (JsonList ([Dict mine] ++ Dict theirs :: [Dict mine]))) 123
  = @check_request_limit example_platform 1700000060000000
      (Some (JsonList ([Dict mine] ++ [Dict mine]))) 123
  ∧ @check_request_limit example_platform (1700000000000000 + 3600000000)
      (Some (JsonList ([] ++ Dict mine :: []))) 123
    = @check_request_limit example_platform (1700000000000000 + 3600000000)
        (Some (JsonList ([] ++ []))) 123.
Proof.
  intros mine theirs. split.
  - apply (@rate_limit_ignores_others_and_old example_platform).
    left. vm_compute. reflexivity.
  - apply (@rate_limit_ignores_others_and_old example_platform).
    right. exists 1700000000000000%Z. split; [vm_compute; reflexivity|].
    vm_compute. discriminate.
Defined.

Lemma add_request_counts_once_witness :
  let records := replicate 9 (@record_of example_platform example_request) in
  let fs := Some (JsonList (Dict <$> records)) in
  let fs' := (@add_request example_platform 1700000050000000 WriteOk fs 123 "jane"
                (Some "1_day") (Some "Jane Doe") (Some "01.01.1990")).2 in
  @check_request_limit example_platform 1700000060000000 fs 123 = true
  ∧ @check_request_limit example_platform 1700000060000000 fs' 123 = false
  ∧ @check_request_limit example_platform 1700000060000000 fs' 456 = true.
Proof.
  intros records fs fs'. split; [vm_compute; reflexivity|]. split.
  - unfold fs', fs.
    rewrite (@add_request_counts_once example_platform 1700000060000000 1700000050000000
               records 123 "jane" (Some "1_day") (Some "Jane Doe") (Some "01.01.1990") 123
               example_instant_roundtrip);
      vm_compute; [reflexivity|reflexivity].
  - unfold fs', fs.
    rewrite (@add_request_counts_once example_platform 1700000060000000 1700000050000000
               records 123 "jane" (Some "1_day") (Some "Jane Doe") (Some "01.01.1990") 456
               example_instant_roundtrip);
      vm_compute; [reflexivity|reflexivity].
Defined.

Lemma text_ignored_outside_collection_witness :
  @handle_user_input example_platform example_io (example_text "hello")
    world_awaiting_photo
  = (Ret tt, world_awaiting_photo)
  ∧ @handle_user_input example_platform example_io (example_text "hello")
      (world_operator None)
    = (Ret tt, world_operator None).
Proof.
  split; apply (@text_ignored_outside_collection example_platform); vm_compute; discriminate.
Defined.

Lemma fio_step_stages_name_witness :
  let w' := (@handle_user_input example_platform example_io (example_text "  Jane Doe ")
               world_awaiting_fio).2 in
  user_data w' !! "fio" = Some "Jane Doe"
  ∧ user_data w' !! "order_state" = Some AWAITING_DOB
  ∧ ledger w' = None.
Proof.
  intros w'.
  destruct (@fio_step_stages_name example_platform example_io (example_text "  Jane Doe ")
              world_awaiting_fio eq_refl) as (Hud & Hl & _).
  unfold w'. rewrite Hud, Hl. repeat split; vm_compute; reflexivity.
Defined.

(** A photo from a client with no order, and one after the order was
    completed. *)
Lemma unexpected_media_changes_nothing_witness :
  let done :=
    (@update_order_status example_platform 1700000060000000 WriteOk example_ledger
       123 "completed").2 in
  (@handle_all_media example_platform example_io example_photo (world_operator None)).2
  = {| ledger := None; user_data := ∅;
       outbox := [ReplyText 123 msg_unexpected_media] |}
  ∧ ledger (@handle_all_media example_platform example_io example_photo (world_buyer done)).2
    = done.
Proof.
  intros done. split.
  - destruct (@unexpected_media_changes_nothing example_platform example_io example_photo
                (world_operator None) PNone) as (Hl & Hu & Ho);
      [vm_compute; reflexivity|discriminate|discriminate|right; discriminate|].
    destruct (@handle_all_media example_platform example_io example_photo
                (world_operator None)).2 as [l u o].
    cbn [ledger user_data outbox] in *. by rewrite Hl, Hu, Ho.
  - destruct (@unexpected_media_changes_nothing example_platform example_io example_photo
                (world_buyer done) (PStr "completed")) as (Hl & _ & _);
      [vm_compute; reflexivity|discriminate|discriminate|right; discriminate|].
    exact Hl.
Defined.

(** The receipt document sent while the ID photo is awaited. *)
Lemma id_photo_must_be_photo_witness :
  let w' := (@handle_all_media example_platform example_io example_receipt
               world_awaiting_photo).2 in
  ledger w' = example_ledger
  ∧ user_data w' !! "order_state" = Some AWAITING_PHOTO
  ∧ outbox w' = [ReplyText 123 msg_photo_as_photo].
Proof.
  intros w'.
  destruct (@id_photo_must_be_photo example_platform example_io example_receipt
              world_awaiting_photo) as (Hl & Hu & Ho);
    [reflexivity|vm_compute; reflexivity|reflexivity|].
  unfold w'. rewrite Hl, Hu, Ho. done.
Defined.

(** A record made with the key "2_days", which names no tariff: with the
    buyer reachable, and with the buyer's chat out of reach. *)
Lemma incomplete_record_restarts_collection_witness :
  let fs := Some (JsonList [Dict (@record_of example_platform example_request_odd)]) in
  let w' := (@handle_all_media example_platform example_io example_photo (world_buyer fs)).2 in
  let cut_off := {| clock := clock example_io; write := WriteOk;
                    deliver := unreachable 123 |} in
  let w'' := (@handle_all_media example_platform cut_off example_photo (world_buyer fs)).2 in
  (ledger w' = fs
   ∧ user_data w' !! "order_state" = Some AWAITING_FIO
   ∧ outbox w' = [ReplyText 123 msg_fio_dob_first])
  ∧ (ledger w'' = fs
     ∧ user_data w'' !! "order_state" = Some AWAITING_PHOTO
     ∧ outbox w'' = []).
Proof.
  intros fs w' cut_off w''. split.
  - destruct (@incomplete_record_restarts_collection example_platform example_io
                example_photo (world_buyer fs)
                (@record_of example_platform example_request_odd) "AgAD-large")
      as (Hl & Ho & Hu & _);
      [reflexivity|vm_compute; reflexivity|reflexivity|reflexivity
      |vm_compute; reflexivity|].
    unfold w'. rewrite Hl, Hu, Ho. done.
  - destruct (@incomplete_record_restarts_collection example_platform cut_off
                example_photo (world_buyer fs)
                (@record_of example_platform example_request_odd) "AgAD-large")
      as (Hl & Ho & Hu & _);
      [reflexivity|vm_compute; reflexivity|reflexivity|reflexivity
      |vm_compute; reflexivity|].
    unfold w''. rewrite Hl, Hu, Ho. done.
Defined.

Lemma payment_proof_step_witness :
  let w' := (@handle_all_media example_platform example_io example_receipt
               (world_buyer example_paying_ledger)).2 in
  get_order_status (ledger w') 123 = Ret (PStr "waiting_confirm")
  ∧ outbox w'
    = [SendDocument (-1002003419071) "BQAD-receipt"
         (caption_receipt 123 (html_escape ("@" +:+ no_username)));
       ReplyText 123 msg_payment_checking].
Proof.
  intros w'.
  destruct (@payment_proof_step example_platform example_io example_receipt
              (world_buyer example_paying_ledger)
              (@stamp_status example_platform 1700000060000000 "waiting_payment"
                 (@record_of example_platform example_request))
              "waiting_payment"
              (SendDocument (-1002003419071) "BQAD-receipt"
                 (caption_receipt 123 (html_escape ("@" +:+ no_username)))))
    as (Ho & Hl & _);
    [vm_compute; reflexivity|vm_compute; reflexivity|by left|reflexivity|reflexivity
    |intros; reflexivity|].
  cbn [from_id example_receipt chat_id] in Hl, Ho.
  unfold w', get_order_status. rewrite Hl, Ho.
  by rewrite (@get_status_stamp_status example_platform).
Defined.

Lemma payment_proof_write_failure_unnoticed_witness :
  let io := {| clock := clock example_io; write := OpenFails; deliver := all_delivered |} in
  let w' := (@handle_all_media example_platform io example_receipt
               (world_buyer example_paying_ledger)).2 in
  get_order_status (ledger w') 123 = Ret (PStr "waiting_payment")
  ∧ last (outbox w') = Some (ReplyText 123 msg_payment_checking).
Proof.
  intros io w'.
  destruct (@payment_proof_write_failure_unnoticed example_platform io example_receipt
              (world_buyer example_paying_ledger)
              (@stamp_status example_platform 1700000060000000 "waiting_payment"
                 (@record_of example_platform example_request))
              "waiting_payment"
              (SendDocument (-1002003419071) "BQAD-receipt"
                 (caption_receipt 123 (html_escape ("@" +:+ no_username)))))
    as (Ho & Hl & _);
    [vm_compute; reflexivity|vm_compute; reflexivity|by left|reflexivity|reflexivity
    |intros; reflexivity|].
  unfold w'. rewrite Hl, Ho. split; vm_compute; reflexivity.
Defined.

(** The buyer's chat cannot be written to, the operator's can. *)
Lemma payment_proof_ack_failure_witness :
  let io := {| clock := clock example_io; write := WriteOk; deliver := unreachable 123 |} in
  let w' := (@handle_all_media example_platform io example_receipt
               (world_buyer example_paying_ledger)).2 in
  get_order_status (ledger w') 123 = Ret (PStr "waiting_confirm")
  ∧ outbox w'
    = [SendDocument (-1002003419071) "BQAD-receipt"
         (caption_receipt 123 (html_escape ("@" +:+ no_username)))].
Proof.
  intros io w'.
  destruct (@payment_proof_ack_failure example_platform io example_receipt
              (world_buyer example_paying_ledger)
              (@stamp_status example_platform 1700000060000000 "waiting_payment"
                 (@record_of example_platform example_request))
              "waiting_payment"
              (SendDocument (-1002003419071) "BQAD-receipt"
                 (caption_receipt 123 (html_escape ("@" +:+ no_username)))))
    as (Ho & Hs & _);
    [vm_compute; reflexivity|vm_compute; reflexivity|by left|reflexivity|reflexivity
    |reflexivity|reflexivity|].
  cbn [from_id example_receipt chat_id] in Hs, Ho.
  unfold w'. rewrite Hs, Ho. done.
Defined.

(** The buyer tries the operator's command from the private chat. *)
Lemma command_refused_outside_operator_chat_witness :
  @confirm_payment example_platform example_io
    {| effective_chat := Some 123%Z; args := ["123"; "https://x/y"] |}
    (world_operator example_paying_ledger)
  = (Ret tt,
     {| ledger := example_paying_ledger; user_data := ∅;
        outbox := [ReplyText 123 msg_admin_only] |}).
Proof.
  apply (@command_refused_outside_operator_chat example_platform Confirm example_io
           {| effective_chat := Some 123%Z; args := ["123"; "https://x/y"] |}
           (world_operator example_paying_ledger)).
  discriminate.
Defined.

Lemma command_needs_two_arguments_witness :
  let w' := (@confirm_payment example_platform example_io (example_command ["123"])
               (world_operator example_paying_ledger)).2 in
  ledger w' = example_paying_ledger
  ∧ outbox w' = [ReplyText (-1002003419071) msg_confirm_usage].
Proof.
  intros w'.
  destruct (@command_needs_two_arguments example_platform Confirm example_io
              (example_command ["123"]) (world_operator example_paying_ledger))
    as (Hl & _ & Ho); [reflexivity|cbn; lia|].
  split; [exact Hl|exact Ho].
Defined.

(** The operator confirms an order that is still at [waiting_req]. *)
Lemma command_sets_status_from_any_witness :
  let w' := (@confirm_payment example_platform example_io
               (example_command ["123"; "https://x/y"])
               (world_operator example_ledger)).2 in
  get_order_status (ledger w') 123 = Ret (PStr "completed")
  ∧ outbox w'
    = [SendMessage 123 (msg_product "https://x/y");
       ReplyText (-1002003419071) (msg_confirmed 123 "https://x/y")].
Proof.
  intros w'.
  destruct (@command_sets_status_from_any example_platform example_io Confirm
              (example_command ["123"; "https://x/y"]) (world_operator example_ledger)
              "123" "https://x/y" [] 123 (@record_of example_platform example_request))
    as (_ & Hs & _ & Ho);
    [reflexivity|reflexivity|reflexivity|vm_compute; reflexivity|reflexivity
    |intros; reflexivity|].
  split; [exact Hs|exact Ho].
Defined.

Lemma command_write_failure_reads_not_found_witness :
  let io := {| clock := clock example_io; write := OpenFails; deliver := all_delivered |} in
  let w' := (@send_requisites example_platform io (example_command ["123"; "card"])
               (world_operator example_ledger)).2 in
  ledger w' = example_ledger
  ∧ outbox w' = [ReplyText (-1002003419071) (msg_no_order 123)].
Proof.
  intros io w'.
  destruct (@command_write_failure_reads_not_found example_platform io SendReq
              (example_command ["123"; "card"]) (world_operator example_ledger)
              "123" "card" [] 123 (@record_of example_platform example_request))
    as (Hl & _ & Ho);
    [reflexivity|reflexivity|reflexivity|vm_compute; reflexivity|discriminate|].
  split; [exact Hl|exact Ho].
Defined.

(** The button of the 30-day tariff, and callback data with a key that
    names no tariff. *)
Lemma select_tariff_admitted_witness :
  query_user_data
    (@select_tariff example_platform example_query_io example_ledger
       (example_query "tariff:30_days") ∅)
  = {[ "selected_tariff_key" := "30_days"; "order_state" := AWAITING_FIO ]}
  ∧ query_user_data
      (@select_tariff example_platform example_query_io example_ledger
         (example_query "tariff:2_days") ∅) !! "selected_tariff_key"
    = Some "2_days".
Proof.
  split.
  - destruct (@select_tariff_admitted example_platform example_query_io example_ledger
                (example_query "tariff:30_days") ∅ "30_days") as [Hud _];
      [reflexivity|reflexivity|vm_compute; reflexivity|].
    rewrite Hud. vm_compute. reflexivity.
  - destruct (@select_tariff_admitted example_platform example_query_io example_ledger
                (example_query "tariff:2_days") ∅ "2_days") as [Hud _];
      [reflexivity|reflexivity|vm_compute; reflexivity|].
    rewrite Hud. vm_compute. reflexivity.
Defined.

(** Ten requests inside the hour: the eleventh choice of a tariff is
    refused. *)
Lemma select_tariff_otherwise_keeps_session_witness :
  let fs := Some (JsonList
                    (Dict <$> replicate 10 (@record_of example_platform example_request))) in
  let r := @select_tariff example_platform example_query_io fs
             (example_query "tariff:30_days") ∅ in
  query_user_data r = ∅
  ∧ query_calls r = [AnswerQuery; EditMessageText msg_limit_exceeded].
Proof.
  intros fs r.
  destruct (@select_tariff_otherwise_keeps_session example_platform example_query_io fs
              (example_query "tariff:30_days") ∅) as [Hud Hcalls].
  { right. right. vm_compute. reflexivity. }
  split; [exact Hud|exact Hcalls].
Defined.

Lemma html_escape_removes_markup_witness :
  html_escape "Jane Doe" = "Jane Doe"
  ∧ occurs_in "<" (html_escape "<b>Jane</b>") = false.
Proof.
  destruct (html_escape_removes_markup "Jane Doe") as [_ Hplain].
  destruct (html_escape_removes_markup "<b>Jane</b>") as [(Hlt & _) _].
  split; [|exact Hlt].
  apply Hplain. intros c Hc. unfold is_html_special in Hc. cbn [occurs_in] in Hc.
  cbn [occurs_in].
  repeat match goal with
         | |- context [Ascii.eqb c ?x] =>
             destruct (Ascii.eqb_spec c x) as [->|_]; [by vm_compute in Hc|]
         end.
  done.
Defined.

(** "1 день - 20" escapes to "1 день \- 20": the hyphen at position 12 of
    the output follows a backslash. *)
Lemma escape_markdown_v2_escapes_all_witness :
  ∃ m, 12 = S m ∧ String.get m (escape_markdown_v2 (Some "1 день - 20")) = Some "\"%char.
Proof.
  apply (escape_markdown_v2_escapes_all "1 день - 20" 12 "-"); reflexivity.
Defined.

(** The ledger cannot be written and the buyer cannot be reached. *)
Lemma dob_step_reply_failure_witness :
  let io := {| clock := clock example_io; write := OpenFails; deliver := unreachable 123 |} in
  let w := (@handle_user_input example_platform example_io (example_text "Jane Doe")
              world_awaiting_fio).2 in
  let run := @handle_user_input example_platform io (example_text "01.01.1990") w in
  run.1 = Raise TransportError
  ∧ user_data run.2 !! "order_state" = Some AWAITING_DOB
  ∧ user_data run.2 !! "dob" = Some "01.01.1990".
Proof.
  intros io w run.
  destruct (@dob_step_reply_failure example_platform io (example_text "01.01.1990") w)
    as (Hout & Hud & Hstate & _);
    [vm_compute; reflexivity|discriminate|reflexivity|].
  split; [exact Hout|]. split; [exact Hstate|].
  unfold run. rewrite Hud. vm_compute. reflexivity.
Defined.

(** Jane Doe's order, one minute per step. *)
Lemma order_lifecycle_witness :
  let w0 := (@handle_user_input example_platform example_io (example_text "Jane Doe")
               world_awaiting_fio).2 in
  let w1 := (@handle_user_input example_platform (example_io_at 1700000060000000)
               (example_text "01.01.1990") w0).2 in
  let w2 := (@handle_all_media example_platform (example_io_at 1700000120000000)
               example_photo w1).2 in
  let w3 := (@send_requisites example_platform (example_io_at 1700000180000000)
               (example_command ["123"; "card"; "4444"]) (world_operator (ledger w2))).2 in
  let w4 := (@handle_all_media example_platform (example_io_at 1700000240000000)
               example_receipt (with_ledger (ledger w3) w2)).2 in
  let w5 := (@confirm_payment example_platform (example_io_at 1700000300000000)
               (example_command ["123"; "https://x/y"]) (world_operator (ledger w4))).2 in
  get_order_status (ledger w2) 123 = Ret (PStr "waiting_payment")
  ∧ get_order_status (ledger w4) 123 = Ret (PStr "waiting_confirm")
  ∧ get_order_status (ledger w5) 123 = Ret (PStr "completed")
  ∧ length (load_orders (ledger w5)) = 1.
Proof.
  intros w0 w1 w2 w3 w4 w5.
  assert (∀ t, @works (example_io_at t)) as Hworks by (by intros t; split).
  destruct (@order_lifecycle example_platform
              (example_io_at 1700000060000000) (example_io_at 1700000120000000)
              (example_io_at 1700000180000000) (example_io_at 1700000240000000)
              (example_io_at 1700000300000000)
              w0 (example_text "01.01.1990") example_photo example_receipt
              (example_command ["123"; "card"; "4444"])
              (example_command ["123"; "https://x/y"])
              123 "30_days" "30 днів — 70₴" "Jane Doe" "AgAD-large"
              (SendDocument (-1002003419071) "BQAD-receipt"
                 (caption_receipt 123 (html_escape ("@" +:+ no_username))))
              "123" "card" ["4444"] "123" "https://x/y" [])
    as (_ & H2 & _ & H4 & H5 & Hn & _);
    [apply Hworks..|reflexivity|reflexivity|reflexivity
    |vm_compute; reflexivity|vm_compute; reflexivity|reflexivity
    |vm_compute; reflexivity|discriminate|vm_compute; discriminate
    |reflexivity|reflexivity|reflexivity|reflexivity|reflexivity
    |reflexivity|reflexivity|reflexivity|].
  split; [exact H2|]. split; [exact H4|]. split; [exact H5|exact Hn].
Defined.
